(** * Composite reward functions (robopianist/suite/composite_reward.py)

  A shallow embedding of the two reward aggregators of the module,
  [CompositeReward] and [TieredReward], and the properties of their
  [add] / [remove] / [compute] methods.

  Modelling choices, all read off the source:
  - [Reward = float] is an IEEE 754 binary64 number: Rocq's primitive
    [float], with [+] and [<?] the kernel's operations;
  - a Python [dict] keeps insertion order, keeps the position of a key that
    is overwritten, and has unique keys: an association list with the three
    operations [dict_get], [dict_set], [dict_del];
  - the two dicts of a [CompositeReward] are objects in a store, and the
    instance holds references to them; the accessors return the reference
    itself, as [return self._reward_terms] does;
  - a [RewardFn] is an external callable: it receives the physics handle,
    may read and change the state of the world outside the aggregator, and
    either returns a float or raises;
  - where the code tests a callable for truth ([if self.fingering_reward_]),
    the callable is an object with its own truth value test, which is true
    for every function but need not be for an instance of a class that
    defines [__bool__] or [__len__];
  - [assert] raises only when the interpreter runs with [__debug__] true
    (the default); under [-O] or [PYTHONOPTIMIZE] the statement is removed;
  - a Python exception is a result [Raise e] threaded through the calls. *)

From Stdlib Require Import Floats.
From stdpp Require Import gmap strings list.

#[local] Set Warnings "-inexact-float".
#[local] Open Scope float_scope.

(** ** Exceptions and results *)

(** The exceptions the module raises itself ([KeyError] from [del d[k]],
    [ValueError] from the two [raise] statements, [AssertionError] from
    [assert False]) and any other exception a reward function may raise,
    given by its class name and message. *)
Inductive exn : Type :=
| KeyError (key : string)
| ValueError (msg : string)
| AssertionError
| OtherError (cls msg : string).

Inductive res (A : Type) : Type :=
| Ret (a : A)
| Raise (e : exn).
Arguments Ret {A} a.
Arguments Raise {A} e.

Definition Reward : Type := float.

(** ** Python dicts: insertion-ordered association lists with unique keys *)

Abbreviation dict V := (list (string * V)).

(** [d[k]] / [d.get(k)] *)
Fixpoint dict_get {V} (d : dict V) (k : string) : option V :=
  match d with
  | [] => None
  | (k', v) :: d' => if decide (k' = k) then Some v else dict_get d' k
  end.

(** [d[k] = v]: overwrite in place when [k] is present, append otherwise. *)
Fixpoint dict_set {V} (d : dict V) (k : string) (v : V) : dict V :=
  match d with
  | [] => [(k, v)]
  | (k', v') :: d' =>
      if decide (k' = k) then (k', v) :: d' else (k', v') :: dict_set d' k v
  end.

(** [del d[k]]: [None] stands for the [KeyError] of an absent key. *)
Fixpoint dict_del {V} (d : dict V) (k : string) : option (dict V) :=
  match d with
  | [] => None
  | (k', v') :: d' =>
      if decide (k' = k) then Some d' else cons (k', v') <$> dict_del d' k
  end.

(** [d.keys()], in iteration order. *)
Definition keys {V} (d : dict V) : list string := d.*1.

(** [d[name] = r] for each of [names] with its value of [rs], in order. *)
Fixpoint record_all {V} (d : dict V) (names : list string) (rs : list V)
  : dict V :=
  match names, rs with
  | name :: names', r :: rs' => record_all (dict_set d name r) names' rs'
  | _, _ => d
  end.

(** ** External reward functions *)

Section External.
Context {Physics World : Type}.

(** [RewardFn = Callable[[mjcf.Physics], Reward]]. The callable runs in the
    world outside the aggregator: it cannot reach the aggregator's dicts. *)
Definition RewardFn : Type := Physics → World → res Reward * World.

(** Computations that call reward functions: state is the outside world. *)
Definition E (A : Type) : Type := World → res A * World.

Definition eret {A} (a : A) : E A := λ w, (Ret a, w).
Definition eraise {A} (e : exn) : E A := λ w, (Raise e, w).
Definition ebind {A B} (m : E A) (k : A → E B) : E B := λ w,
  match m w with
  | (Ret a, w') => k a w'
  | (Raise e, w') => (Raise e, w')
  end.

(** [reward_fn(physics)] *)
Definition call (reward_fn : RewardFn) (physics : Physics) : E Reward :=
  reward_fn physics.
End External.
Arguments RewardFn : clear implicits.
Arguments E : clear implicits.

Declare Scope ext_scope.
Delimit Scope ext_scope with ext.
Notation "x <- m ;; k" := (ebind m (λ x, k))
  (at level 100, m at next level, right associativity) : ext_scope.
Notation "m ;;; k" := (ebind m (λ _, k))
  (at level 100, right associativity) : ext_scope.

(** ** Callable objects

    [TieredReward.compute] does two things with the object in an optional
    slot: it tests its truth value and it calls it. The truth value test of
    an object runs the [__bool__] or [__len__] of its class when there is
    one, so like a call it happens in the outside world and may raise; for a
    function, a lambda or a method it is [True] and does nothing. *)

Section Callables.
Context {Physics World : Type}.

Record Callable : Type := mkCallable {
  invoke : RewardFn Physics World;
  truth : E World bool;
}.

(** A plain function as an object: always true. *)
Definition function (f : RewardFn Physics World) : Callable :=
  {| invoke := f; truth := eret true |}.

(** The object is true whenever it is tested, and the test changes nothing. *)
Definition truthy (c : Callable) : Prop :=
  ∀ w, truth c w = (Ret true, w).

(** The object is false whenever it is tested, and the test changes
    nothing. *)
Definition falsy (c : Callable) : Prop :=
  ∀ w, truth c w = (Ret false, w).
End Callables.
Arguments Callable : clear implicits.
Coercion function : RewardFn >-> Callable.

(** ** The tiered aggregator: class [TieredReward] *)

Module TieredReward.
Section Tiered.
Context {Physics World : Type}.
(** The reward functions of this class are held as callable objects. *)
Abbreviation RewardFn := (Callable Physics World).

(** The five attributes of an instance. The two optional slots hold
    [None] until [add] fills them. *)
Record t : Type := mk {
  key_press_reward_ : RewardFn;
  sustain_reward_ : RewardFn;
  energy_reward_ : RewardFn;
  fingering_reward_ : option RewardFn;
  forearm_reward_ : option RewardFn;
}.

Definition __init__ (key_press_reward sustain_reward energy_reward : RewardFn)
  : t :=
  {| key_press_reward_ := key_press_reward;
     sustain_reward_ := sustain_reward;
     energy_reward_ := energy_reward;
     fingering_reward_ := None;
     forearm_reward_ := None |}.

(** Attribute assignments [self.fingering_reward_ = reward_fn] and
    [self.forearm_reward_ = reward_fn]. *)
Definition set_fingering_reward_ (self : t) (reward_fn : RewardFn) : t :=
  {| key_press_reward_ := key_press_reward_ self;
     sustain_reward_ := sustain_reward_ self;
     energy_reward_ := energy_reward_ self;
     fingering_reward_ := Some reward_fn;
     forearm_reward_ := forearm_reward_ self |}.

Definition set_forearm_reward_ (self : t) (reward_fn : RewardFn) : t :=
  {| key_press_reward_ := key_press_reward_ self;
     sustain_reward_ := sustain_reward_ self;
     energy_reward_ := energy_reward_ self;
     fingering_reward_ := fingering_reward_ self;
     forearm_reward_ := Some reward_fn |}.

(** A method that mutates the instance returns its result together with
    the instance as the call leaves it. *)
Definition add (self : t) (name : string) (reward_fn : RewardFn)
  : res unit * t :=
  if decide (name = "fingering_reward") then
    (Ret (), set_fingering_reward_ self reward_fn)
  else if decide (name = "forearm_reward") then
    (Ret (), set_forearm_reward_ self reward_fn)
  else
    (Raise (ValueError ("Cannot add " +:+ name)), self).

Definition remove (self : t) (name : string) : res unit * t :=
  (Raise (ValueError ("cannot remove " +:+ name)), self).

(** The truth value of what a slot holds: [None] is false, an object
    decides for itself. *)
Definition slot_truth (slot : option RewardFn) : E World bool :=
  match slot with
  | Some fn => truth fn
  | None => eret false
  end.

(** [slot(physics)]; calling [None] is a [TypeError]. *)
Definition call_slot (slot : option RewardFn) (physics : Physics)
  : E World Reward :=
  match slot with
  | Some fn => call (invoke fn) physics
  | None => eraise (OtherError "TypeError" "'NoneType' object is not callable")
  end.

(** [assert False] *)
Definition assert_False (__debug__ : bool) : E World unit :=
  if __debug__ then eraise AssertionError else eret ().

(** [compute] reads the instance and calls the channels in the world. The
    fingering slot is tested for truth twice (lines 103 and 104), the
    forearm slot once (line 106). [__debug__] is the interpreter's flag. *)
Definition compute (__debug__ : bool) (self : t) (physics : Physics)
  : E World Reward :=
  (key_press_rew <- call (invoke (key_press_reward_ self)) physics ;;
   sustain_reward <- call (invoke (sustain_reward_ self)) physics ;;
   energy_reward <- call (invoke (energy_reward_ self)) physics ;;
   fingering_reward <-
     (b <- slot_truth (fingering_reward_ self) ;;
      if b then call_slot (fingering_reward_ self) physics
      else eret 0) ;;
   (b <- slot_truth (fingering_reward_ self) ;;
    if negb b then assert_False __debug__ else eret ()) ;;;
   forearm_reward <-
     (b <- slot_truth (forearm_reward_ self) ;;
      if b then call_slot (forearm_reward_ self) physics
      else eret 0) ;;
   let sum_of_rewards := key_press_rew + sustain_reward + fingering_reward in
   let sum_of_rewards :=
     if 0.5 <? key_press_rew
     then sum_of_rewards + (energy_reward + forearm_reward)
     else sum_of_rewards in
   eret sum_of_rewards)%ext.

(** *** Callers

    The method calls a client can make to change an instance: each either
    returns or raises, and the client goes on with the instance as the
    call left it. *)
Inductive method_call : Type :=
| Add (name : string) (reward_fn : RewardFn)
| Remove (name : string).

Definition perform (self : t) (c : method_call) : t :=
  match c with
  | Add name reward_fn => (add self name reward_fn).2
  | Remove name => (remove self name).2
  end.

Definition after (self : t) (cs : list method_call) : t :=
  foldl perform self cs.

(** [add] was never called for the fingering slot. *)
Definition never_adds_fingering (cs : list method_call) : Prop :=
  ∀ reward_fn, Add "fingering_reward" reward_fn ∉ cs.

End Tiered.
Arguments t : clear implicits.
Arguments method_call : clear implicits.
End TieredReward.

(** ** The simple aggregator: class [CompositeReward] *)

Module CompositeReward.
Section Composite.
Context {Physics World : Type}.
Abbreviation RewardFn := (RewardFn Physics World).
Abbreviation loc := positive.

(** *** The object store

    The two dicts of an instance are mutable objects that the accessors hand
    out, so they live in a store and are named by reference. *)
Inductive object : Type :=
| FnDict (d : dict RewardFn)
| TermDict (d : dict Reward).

Record state : Type := mkState {
  heap : gmap loc object;
  world : World;
}.

(** Computations over the store and the outside world. [None] is a
    reference that names no dict of the expected kind, which no object built
    by [__init__] has. *)
Definition M (A : Type) : Type := state → option (res A * state).

Definition ret {A} (a : A) : M A := λ σ, Some (Ret a, σ).
Definition raise {A} (e : exn) : M A := λ σ, Some (Raise e, σ).
Definition stuck {A} : M A := λ _, None.
Definition bind {A B} (m : M A) (k : A → M B) : M B := λ σ,
  match m σ with
  | Some (Ret a, σ') => k a σ'
  | Some (Raise e, σ') => Some (Raise e, σ')
  | None => None
  end.

Notation "x <- m ;; k" := (bind m (λ x, k))
  (at level 100, m at next level, right associativity).
Notation "m ;;; k" := (bind m (λ _, k))
  (at level 100, right associativity).

(** The state with the object at [l] replaced, and with a new world. *)
Definition update (l : loc) (o : object) (σ : state) : state :=
  {| heap := <[l := o]> (heap σ); world := world σ |}.

Definition set_world (w : World) (σ : state) : state :=
  {| heap := heap σ; world := w |}.

(** A call into the outside world leaves the store alone. *)
Definition lift {A} (m : E World A) : M A := λ σ,
  let '(r, w) := m (world σ) in
  Some (r, set_world w σ).

(** [{}]: a new object at a reference not yet in use. *)
Definition alloc (o : object) : M loc := λ σ,
  let l := fresh (dom (heap σ)) in
  Some (Ret l, update l o σ).

Definition load (l : loc) : M object := λ σ,
  match heap σ !! l with
  | Some o => Some (Ret o, σ)
  | None => None
  end.

Definition store (l : loc) (o : object) : M unit := λ σ,
  Some (Ret (), update l o σ).

(** The dict operations of the source, on references. *)
Definition fns_items (l : loc) : M (dict RewardFn) :=
  o <- load l ;;
  match o with
  | FnDict d => ret d
  | TermDict _ => stuck
  end.

Definition fns_setitem (l : loc) (name : string) (reward_fn : RewardFn)
  : M unit :=
  d <- fns_items l ;;
  store l (FnDict (dict_set d name reward_fn)).

Definition fns_delitem (l : loc) (name : string) : M unit :=
  d <- fns_items l ;;
  match dict_del d name with
  | Some d' => store l (FnDict d')
  | None => raise (KeyError name)
  end.

Definition terms_items (l : loc) : M (dict Reward) :=
  o <- load l ;;
  match o with
  | TermDict d => ret d
  | FnDict _ => stuck
  end.

Definition terms_setitem (l : loc) (name : string) (rew : Reward) : M unit :=
  d <- terms_items l ;;
  store l (TermDict (dict_set d name rew)).

(** *** The class *)

(** An instance binds its two attributes once, in [__init__]. *)
Record t : Type := mk {
  _reward_fns : loc;
  _reward_terms : loc;
}.

Definition add (self : t) (name : string) (reward_fn : RewardFn) : M unit :=
  fns_setitem (_reward_fns self) name reward_fn.

Definition remove (self : t) (name : string) : M unit :=
  fns_delitem (_reward_fns self) name.

(** The body of the [for] loop of [compute], over the items still to visit.
    The reward functions cannot reach the store, so the items the loop
    visits are those the dict held when the loop began. *)
Fixpoint compute_loop (self : t) (physics : Physics)
    (items : list (string * RewardFn)) (sum_of_rewards : float) : M float :=
  match items with
  | [] => ret sum_of_rewards
  | (name, reward_fn) :: items' =>
      rew <- lift (call reward_fn physics) ;;
      let sum_of_rewards := sum_of_rewards + rew in
      terms_setitem (_reward_terms self) name rew ;;;
      compute_loop self physics items' sum_of_rewards
  end.

Definition compute (self : t) (physics : Physics) : M float :=
  items <- fns_items (_reward_fns self) ;;
  compute_loop self physics items 0.

Definition reward_fns (self : t) : M loc := ret (_reward_fns self).

Definition reward_terms (self : t) : M loc := ret (_reward_terms self).

(** [for name, reward_fn in kwargs.items(): self.add(name, reward_fn)], on
    the instance under construction: [add] uses [_reward_fns] alone. *)
Fixpoint init_loop (fns : loc) (kwargs : list (string * RewardFn)) : M unit :=
  match kwargs with
  | [] => ret ()
  | (name, reward_fn) :: kwargs' =>
      fns_setitem fns name reward_fn ;;;
      init_loop fns kwargs'
  end.

Definition __init__ (kwargs : list (string * RewardFn)) : M t :=
  fns <- alloc (FnDict []) ;;
  init_loop fns kwargs ;;;
  terms <- alloc (TermDict []) ;;
  ret {| _reward_fns := fns; _reward_terms := terms |}.

(** *** Observations and callers *)

(** The dict behind [reward_fns], and the one behind [reward_terms]. *)
Definition registered (self : t) (σ : state) : option (dict RewardFn) :=
  match heap σ !! _reward_fns self with
  | Some (FnDict d) => Some d
  | _ => None
  end.

Definition snapshot (self : t) (σ : state) : option (dict Reward) :=
  match heap σ !! _reward_terms self with
  | Some (TermDict d) => Some d
  | _ => None
  end.

(** [self.reward_terms.get(name)] *)
Definition term (self : t) (σ : state) (name : string) : option Reward :=
  d ← snapshot self σ; dict_get d name.

(** What a client does between constructing an instance and a call under
    study: method calls, each of which returns or raises before the client
    goes on, and steps of the world outside the aggregator. *)
Inductive method_call : Type :=
| Add (name : string) (reward_fn : RewardFn)
| Remove (name : string)
| Compute (physics : Physics)
| Outside (k : World → World).

Definition perform (self : t) (c : method_call) (σ : state) : option state :=
  match c with
  | Add name reward_fn => snd <$> add self name reward_fn σ
  | Remove name => snd <$> remove self name σ
  | Compute physics => snd <$> compute self physics σ
  | Outside k => Some (set_world (k (world σ)) σ)
  end.

Fixpoint after (self : t) (cs : list method_call) (σ : state) : option state :=
  match cs with
  | [] => Some σ
  | c :: cs' => σ' ← perform self c σ; after self cs' σ'
  end.

(** The [add] calls of a client, in order. *)
Fixpoint added (cs : list method_call) : list (string * RewardFn) :=
  match cs with
  | [] => []
  | Add name reward_fn :: cs' => (name, reward_fn) :: added cs'
  | _ :: cs' => added cs'
  end.

Definition never_removes (cs : list method_call) : Prop :=
  ∀ name, Remove name ∉ cs.

(** The class invariant: both attributes name dicts of their kind. Keys of a
    dict are unique. *)
Definition valid (self : t) (σ : state) : Prop :=
  ∃ fns ts, registered self σ = Some fns ∧ snapshot self σ = Some ts ∧
            NoDup (keys fns) ∧ NoDup (keys ts).

(** Every function of [items] is called once with [physics], in order, each
    in the world its predecessor left, and returns: [rs] are the returned
    values and [w'] is the world after the last call. *)
Inductive returns (physics : Physics)
  : World → list (string * RewardFn) → list Reward → World → Prop :=
| returns_nil w : returns physics w [] [] w
| returns_cons w name reward_fn r w1 items rs w2 :
    reward_fn physics w = (Ret r, w1) →
    returns physics w1 items rs w2 →
    returns physics w ((name, reward_fn) :: items) (r :: rs) w2.

(** The float sum the loop accumulates: left to right from [0.0]. *)
Definition sum_of (rs : list Reward) : float := foldl PrimFloat.add 0 rs.

(** A client that writes [d[name] = rew] into a mapping it holds. *)
Definition client_setitem (d : loc) (name : string) (rew : Reward) : M unit :=
  terms_setitem d name rew.

End Composite.
Arguments object : clear implicits.
Arguments state : clear implicits.
Arguments method_call : clear implicits.
Arguments M : clear implicits.
End CompositeReward.

(** ** Concrete instances

    A world that is the log of the calls made so far, and reward functions
    that write their label to it; the physics handle is a unit. *)

Definition constant (label : string) (r : Reward)
  : RewardFn unit (list string) :=
  λ _ log, (Ret r, log ++ [label]).

Definition failing (label : string) (e : exn)
  : RewardFn unit (list string) :=
  λ _ log, (Raise e, log ++ [label]).

(** A tiered aggregator with all five channels, as in the spec's examples:
    sustain 0.2, energy 1.0, fingering 0.1, forearm 1.0. *)
Definition tiered_example (key_press : Reward)
  : TieredReward.t unit (list string) :=
  TieredReward.after
    (TieredReward.__init__
       (constant "key_press" key_press) (constant "sustain" 0.2)
       (constant "energy" 1.0))
    [TieredReward.Add "fingering_reward" (constant "fingering" 0.1);
     TieredReward.Add "forearm_reward" (constant "forearm" 1.0)].

(** A simple aggregator built as [CompositeReward(key_press=...)] in an
    empty store, then used by a client; [example_state] is the state the
    client leaves, [failing_state] one whose second function raises. *)
Definition empty_state : CompositeReward.state unit (list string) :=
  CompositeReward.mkState ∅ [].

Definition example_self : CompositeReward.t := CompositeReward.mk 1 2.

Definition example_kwargs : dict (RewardFn unit (list string)) :=
  [("key_press", constant "key_press" 0.3)].

Definition example_client
  : list (CompositeReward.method_call unit (list string)) :=
  [CompositeReward.Add "sustain" (constant "sustain" 0.2);
   CompositeReward.Compute ();
   CompositeReward.Add "fingering" (constant "fingering" 0.1);
   CompositeReward.Outside (λ _, [])].

Definition initial_state : CompositeReward.state unit (list string) :=
  CompositeReward.mkState
    {[ 1%positive := CompositeReward.FnDict example_kwargs;
       2%positive := CompositeReward.TermDict [] ]}
    [].

Definition example_state : CompositeReward.state unit (list string) :=
  CompositeReward.mkState
    {[ 1%positive :=
         CompositeReward.FnDict
           [("key_press", constant "key_press" 0.3);
            ("sustain", constant "sustain" 0.2);
            ("fingering", constant "fingering" 0.1)];
       2%positive :=
         CompositeReward.TermDict [("key_press", 0.3); ("sustain", 0.2)] ]}
    [].

Definition failing_state : CompositeReward.state unit (list string) :=
  CompositeReward.mkState
    {[ 1%positive :=
         CompositeReward.FnDict
           [("key_press", constant "key_press" 0.3);
            ("sustain", failing "sustain" (OtherError "RuntimeError" "boom"));
            ("fingering", constant "fingering" 0.1)];
       2%positive :=
         CompositeReward.TermDict [("key_press", 1.0); ("sustain", 0.2)] ]}
    [].

(** What a read-only view would be: whatever a caller assigns through the
    mapping that [reward_terms] returned, the snapshot of the instance stays
    as it was. *)
Definition reward_terms_read_only (Physics World : Type) : Prop :=
  ∀ (self : CompositeReward.t) (σ σ' : CompositeReward.state Physics World)
    (d : positive) (name : string) (rew : Reward) (r : res unit),
    CompositeReward.valid self σ →
    CompositeReward.reward_terms self σ = Some (Ret d, σ) →
    CompositeReward.client_setitem d name rew σ = Some (r, σ') →
    CompositeReward.snapshot self σ' = CompositeReward.snapshot self σ.

(** ** Further definitions *)

(** The names of the snapshot are the first registered names, in
    registration order (what holds as long as nothing is removed). *)
Definition snapshot_follows {Physics World : Type}
    (self : CompositeReward.t) (σ : CompositeReward.state Physics World)
  : Prop :=
  ∃ fns ts,
    CompositeReward.registered self σ = Some fns ∧
    CompositeReward.snapshot self σ = Some ts ∧
    keys ts `prefix_of` keys fns.

(** A tiered aggregator whose forearm slot was never filled. *)
Definition tiered_without_forearm (key_press : Reward)
  : TieredReward.t unit (list string) :=
  TieredReward.after
    (TieredReward.__init__
       (constant "key_press" key_press) (constant "sustain" 0.2)
       (constant "energy" 1.0))
    [TieredReward.Add "fingering_reward" (constant "fingering" 0.1)].

(** A second simple aggregator, built as [CompositeReward(energy=...)] in
    [example_state], and the state after its first [compute]. *)
Definition second_self : CompositeReward.t := CompositeReward.mk 3 4.

Definition second_kwargs : dict (RewardFn unit (list string)) :=
  [("energy", constant "energy" 1.0)].

Definition second_state : CompositeReward.state unit (list string) :=
  CompositeReward.update 4 (CompositeReward.TermDict [])
    (CompositeReward.update 3 (CompositeReward.FnDict second_kwargs)
       example_state).

Definition second_state_computed : CompositeReward.state unit (list string) :=
  CompositeReward.set_world ["energy"]
    (CompositeReward.update 4 (CompositeReward.TermDict [("energy", 1.0)])
       second_state).

(** The state [CompositeReward()] leaves in an empty store. *)
Definition bare_state : CompositeReward.state unit (list string) :=
  CompositeReward.mkState
    {[ 1%positive := CompositeReward.FnDict [];
       2%positive := CompositeReward.TermDict [] ]}
    [].

(** A callable object that is false when tested, such as an instance of a
    class that defines [__call__] and a [__len__] returning [0]. *)
Definition always_false (f : RewardFn unit (list string))
  : Callable unit (list string) :=
  {| invoke := f; truth := eret false |}.

(** A tiered aggregator with all five channels registered, the forearm one
    with an object that is false. *)
Definition tiered_false_forearm (key_press : Reward)
  : TieredReward.t unit (list string) :=
  TieredReward.after
    (TieredReward.__init__
       (constant "key_press" key_press) (constant "sustain" 0.2)
       (constant "energy" 1.0))
    [TieredReward.Add "fingering_reward" (constant "fingering" 0.1);
     TieredReward.Add "forearm_reward"
       (always_false (constant "forearm" 1.0))].

(** A tiered aggregator on which only the forearm channel was added. *)
Definition tiered_without_fingering (key_press : Reward)
  : TieredReward.t unit (list string) :=
  TieredReward.after
    (TieredReward.__init__
       (constant "key_press" key_press) (constant "sustain" 0.2)
       (constant "energy" 1.0))
    [TieredReward.Add "forearm_reward" (constant "forearm" 1.0)].

(** * Properties *)

(** ** Comparison of binary64 numbers

    [key_press_rew > 0.5] is the kernel's [0.5 <? key_press_rew]. The two
    lemmas relate it to [<=?] through the specification of the primitive
    comparisons on [spec_float]. *)

Lemma SFcompare_swap (x y : spec_float) :
  SFcompare y x = CompOpp <$> SFcompare x y.
Proof.
  destruct x as [sx|sx| |sx mx ex], y as [sy|sy| |sy my ey]; simpl;
    try reflexivity;
    try (destruct sx; reflexivity); try (destruct sy; reflexivity);
    try (destruct sx, sy; reflexivity).
  destruct sx, sy; simpl; try reflexivity; f_equal;
    rewrite (Z.compare_antisym ex ey);
    destruct (ex ?= ey)%Z; simpl; try reflexivity;
    rewrite (Pos.compare_cont_antisym mx my Eq); simpl;
    destruct (Pos.compare_cont Eq mx my); reflexivity.
Qed.

Lemma leb_not_gt (x y : float) : (x <=? y) = true → (y <? x) = false.
Proof.
  rewrite leb_spec, ltb_spec. unfold SFleb, SFltb.
  rewrite (SFcompare_swap (Prim2SF x) (Prim2SF y)).
  destruct (SFcompare (Prim2SF x) (Prim2SF y)) as [[]|]; simpl; congruence.
Qed.

(** ** Properties of [TieredReward] *)

Section TieredRewardSpec.
Context {Physics World : Type}.
Abbreviation TFn := (Callable Physics World).
Implicit Types (self : TieredReward.t Physics World) (physics : Physics).
Implicit Types (w : World) (name : string).

Lemma tiered_perform_keeps_mandatory self (c : TieredReward.method_call Physics World) :
  TieredReward.key_press_reward_ (TieredReward.perform self c)
    = TieredReward.key_press_reward_ self ∧
  TieredReward.sustain_reward_ (TieredReward.perform self c)
    = TieredReward.sustain_reward_ self ∧
  TieredReward.energy_reward_ (TieredReward.perform self c)
    = TieredReward.energy_reward_ self.
Proof.
  destruct c as [name fn|name]; simpl; [|done].
  unfold TieredReward.add. repeat case_decide; done.
Qed.

Lemma tiered_perform_keeps_fingering self (c : TieredReward.method_call Physics World) :
  (∀ fn, c ≠ TieredReward.Add "fingering_reward" fn) →
  TieredReward.fingering_reward_ (TieredReward.perform self c)
    = TieredReward.fingering_reward_ self.
Proof.
  intros Hc. destruct c as [name fn|name]; simpl; [|done].
  unfold TieredReward.add. repeat case_decide; try done.
  subst. by destruct (Hc fn).
Qed.

Lemma tiered_after_keeps_fingering (cs : list (TieredReward.method_call Physics World)) self :
  TieredReward.never_adds_fingering cs →
  TieredReward.fingering_reward_ (TieredReward.after self cs)
    = TieredReward.fingering_reward_ self.
Proof.
  unfold TieredReward.never_adds_fingering, TieredReward.after.
  revert self. induction cs as [|c cs IH]; intros self Hcs; simpl; [done|].
  rewrite IH.
  - apply tiered_perform_keeps_fingering. intros fn ->.
    apply (Hcs fn). left.
  - intros fn Hin. apply (Hcs fn). by right.
Qed.

(** With assertions enabled and without a fingering function, [compute]
    never returns. *)
Lemma tiered_compute_unregistered self physics w :
  TieredReward.fingering_reward_ self = None →
  ∃ e w', TieredReward.compute true self physics w = (Raise e, w').
Proof.
  intros Hf. unfold TieredReward.compute, ebind, call. rewrite Hf.
  destruct (invoke (TieredReward.key_press_reward_ self) physics w)
    as [[k|e] w1]; [|by eauto].
  destruct (invoke (TieredReward.sustain_reward_ self) physics w1)
    as [[s|e] w2]; [|by eauto].
  destruct (invoke (TieredReward.energy_reward_ self) physics w2)
    as [[en|e] w3]; [|by eauto].
  simpl. by eauto.
Qed.

(** C2: with all five channels registered, the fingering and forearm
    callables being true when tested (as every function is), and every
    channel returning, [compute] returns [key_press + sustain + fingering]
    when [key_press <= 0.5] (so also at exactly [0.5]: the gate test is the
    strict [key_press > 0.5]), and that sum plus [energy + forearm] when
    [key_press > 0.5]; the five channels are called once each, in the order
    key press, sustain, energy, fingering, forearm. This holds with
    assertions enabled or not. *)
Theorem tiered_compute_gate (__debug__ : bool) self physics (ff fa : TFn)
    (k s e f a : Reward) w0 w1 w2 w3 w4 w5 :
  TieredReward.fingering_reward_ self = Some ff →
  TieredReward.forearm_reward_ self = Some fa →
  truthy ff →
  truthy fa →
  invoke (TieredReward.key_press_reward_ self) physics w0 = (Ret k, w1) →
  invoke (TieredReward.sustain_reward_ self) physics w1 = (Ret s, w2) →
  invoke (TieredReward.energy_reward_ self) physics w2 = (Ret e, w3) →
  invoke ff physics w3 = (Ret f, w4) →
  invoke fa physics w4 = (Ret a, w5) →
  ((k <=? 0.5) = true →
     TieredReward.compute __debug__ self physics w0
       = (Ret (k + s + f), w5)) ∧
  (k = 0.5 →
     TieredReward.compute __debug__ self physics w0
       = (Ret (0.5 + s + f), w5)) ∧
  ((0.5 <? k) = true →
     TieredReward.compute __debug__ self physics w0
       = (Ret (k + s + f + (e + a)), w5)).
Proof.
  intros Hff Hfa Htf Hta Hk Hs He Hf Ha.
  assert (TieredReward.compute __debug__ self physics w0
          = (Ret (if 0.5 <? k then k + s + f + (e + a) else k + s + f), w5))
    as Hrun.
  { unfold TieredReward.compute, TieredReward.slot_truth,
      TieredReward.call_slot, ebind, call.
    rewrite Hk, Hs, He, Hff, Hfa.
    rewrite (Htf w3), Hf, (Htf w4). simpl.
    by rewrite (Hta w4), Ha. }
  rewrite Hrun. repeat split.
  - intros Hle. by rewrite (leb_not_gt _ _ Hle).
  - by intros ->.
  - by intros ->.
Qed.

Lemma tiered_after_keeps_mandatory
    (cs : list (TieredReward.method_call Physics World)) self :
  TieredReward.key_press_reward_ (TieredReward.after self cs)
    = TieredReward.key_press_reward_ self ∧
  TieredReward.sustain_reward_ (TieredReward.after self cs)
    = TieredReward.sustain_reward_ self ∧
  TieredReward.energy_reward_ (TieredReward.after self cs)
    = TieredReward.energy_reward_ self.
Proof.
  unfold TieredReward.after. revert self.
  induction cs as [|c cs IH]; intros self; simpl; [done|].
  destruct (IH (TieredReward.perform self c)) as (-> & -> & ->).
  apply tiered_perform_keeps_mandatory.
Qed.

(** C3: with assertions enabled, on an instance whose fingering slot was
    never filled by [add], every call of [compute] raises; it never returns
    a sum (with [0.0] in place of the fingering reward or otherwise). *)
Theorem tiered_compute_without_fingering_raises (__debug__ : bool)
    (key_press_reward sustain_reward energy_reward : TFn)
    (cs : list (TieredReward.method_call Physics World)) physics w :
  __debug__ = true →
  TieredReward.never_adds_fingering cs →
  let self :=
    TieredReward.after
      (TieredReward.__init__ key_press_reward sustain_reward energy_reward) cs
  in
  (∃ e w', TieredReward.compute __debug__ self physics w = (Raise e, w')) ∧
  (∀ r w', TieredReward.compute __debug__ self physics w ≠ (Ret r, w')).
Proof.
  intros -> Hcs self.
  assert (TieredReward.fingering_reward_ self = None) as Hnone.
  { unfold self. by rewrite tiered_after_keeps_fingering. }
  destruct (tiered_compute_unregistered self physics w Hnone) as (e & w' & Hrun).
  split; [by eauto|]. intros r w''. rewrite Hrun. congruence.
Qed.

(** C10: with assertions enabled, on an instance whose fingering slot was
    never filled, [compute] first calls the key-press, sustain and energy
    functions, in that order and each with [physics]; when the three
    return, the call then fails with the [AssertionError], in the world the
    three calls produced. *)
Theorem tiered_compute_calls_mandatory_before_abort (__debug__ : bool)
    (key_press_reward sustain_reward energy_reward : TFn)
    (cs : list (TieredReward.method_call Physics World)) physics
    (k s e : Reward) w0 w1 w2 w3 :
  __debug__ = true →
  TieredReward.never_adds_fingering cs →
  invoke key_press_reward physics w0 = (Ret k, w1) →
  invoke sustain_reward physics w1 = (Ret s, w2) →
  invoke energy_reward physics w2 = (Ret e, w3) →
  TieredReward.compute __debug__
    (TieredReward.after
       (TieredReward.__init__ key_press_reward sustain_reward energy_reward) cs)
    physics w0
  = (Raise AssertionError, w3).
Proof.
  intros -> Hcs Hk Hs He.
  set (self0 := TieredReward.__init__ _ _ _).
  pose proof (tiered_after_keeps_fingering cs self0 Hcs) as Hf.
  destruct (tiered_after_keeps_mandatory cs self0) as (Hkp & Hsu & Hen).
  unfold TieredReward.compute, ebind, call.
  rewrite Hkp, Hsu, Hen, Hf. simpl. by rewrite Hk, Hs, He.
Qed.

(** C6: [add] returns exactly for the two slot names ["fingering_reward"]
    and ["forearm_reward"]; it then stores the function in that slot, in
    place of whatever the slot held, and leaves the four other attributes as
    they were. For any other name it raises [ValueError] and the instance is
    unchanged. *)
Theorem tiered_add_slots self name (reward_fn : TFn) :
  TieredReward.add self "fingering_reward" reward_fn
    = (Ret (),
       TieredReward.mk
         (TieredReward.key_press_reward_ self)
         (TieredReward.sustain_reward_ self)
         (TieredReward.energy_reward_ self)
         (Some reward_fn)
         (TieredReward.forearm_reward_ self)) ∧
  TieredReward.add self "forearm_reward" reward_fn
    = (Ret (),
       TieredReward.mk
         (TieredReward.key_press_reward_ self)
         (TieredReward.sustain_reward_ self)
         (TieredReward.energy_reward_ self)
         (TieredReward.fingering_reward_ self)
         (Some reward_fn)) ∧
  (name ≠ "fingering_reward" → name ≠ "forearm_reward" →
   TieredReward.add self name reward_fn
     = (Raise (ValueError ("Cannot add " +:+ name)), self)) ∧
  ((∃ self', TieredReward.add self name reward_fn = (Ret (), self'))
   ↔ name = "fingering_reward" ∨ name = "forearm_reward").
Proof.
  split; [done|]. split; [done|]. split.
  - intros H1 H2. unfold TieredReward.add. by repeat case_decide.
  - unfold TieredReward.add. split.
    + intros [self' Hadd]. repeat case_decide; auto. discriminate.
    + intros [-> | ->]; simpl; eauto.
Qed.

(** C7: [remove] raises [ValueError] for every name and leaves the
    instance, hence all five slots, unchanged. *)
Theorem tiered_remove_always_raises self name :
  TieredReward.remove self name
    = (Raise (ValueError ("cannot remove " +:+ name)), self).
Proof. reflexivity. Qed.
End TieredRewardSpec.

Lemma function_truthy {Physics World : Type} (f : RewardFn Physics World) :
  truthy (function f).
Proof. by intros w. Qed.

Lemma tiered_compute_gate_witness :
  TieredReward.compute true (tiered_example 0.3) () []
    = (Ret 0.6, ["key_press"; "sustain"; "energy"; "fingering"; "forearm"]) ∧
  TieredReward.compute true (tiered_example 0.5) () []
    = (Ret (0.5 + 0.2 + 0.1),
       ["key_press"; "sustain"; "energy"; "fingering"; "forearm"]) ∧
  TieredReward.compute true (tiered_example 0.6) () []
    = (Ret 2.9, ["key_press"; "sustain"; "energy"; "fingering"; "forearm"]).
Proof.
  pose (gate := λ k,
    tiered_compute_gate true (tiered_example k) ()
      (constant "fingering" 0.1) (constant "forearm" 1.0)
      k 0.2 1.0 0.1 1.0
      [] ["key_press"] ["key_press"; "sustain"]
      ["key_press"; "sustain"; "energy"]
      ["key_press"; "sustain"; "energy"; "fingering"]
      ["key_press"; "sustain"; "energy"; "fingering"; "forearm"]
      eq_refl eq_refl
      (function_truthy (constant "fingering" 0.1))
      (function_truthy (constant "forearm" 1.0))
      eq_refl eq_refl eq_refl eq_refl eq_refl).
  split; [|split].
  - exact (proj1 (gate 0.3) eq_refl).
  - exact (proj1 (proj2 (gate 0.5)) eq_refl).
  - exact (proj2 (proj2 (gate 0.6)) eq_refl).
Defined.

(** C2, without the condition on the truth values, does not hold: here all
    five channels are registered and [key_press] is [0.6], but the forearm
    object is false when tested, so it is never called and [compute]
    returns [0.6 + 0.2 + 0.1 + (1.0 + 0.0)], which is [1.9] and not [2.9]. *)
Lemma tiered_compute_gate_false_forearm :
  TieredReward.fingering_reward_ (tiered_false_forearm 0.6)
    = Some (function (constant "fingering" 0.1)) ∧
  TieredReward.forearm_reward_ (tiered_false_forearm 0.6)
    = Some (always_false (constant "forearm" 1.0)) ∧
  (0.5 <? 0.6) = true ∧
  TieredReward.compute true (tiered_false_forearm 0.6) () []
    = (Ret 1.9, ["key_press"; "sustain"; "energy"; "fingering"]) ∧
  0.6 + 0.2 + 0.1 + (1.0 + 1.0) = 2.9 ∧
  (1.9 =? 2.9) = false.
Proof. repeat split; reflexivity. Qed.

(** On binary64 the grouping of the open-gate sum is observable: [compute]
    adds [energy + forearm] as one term, which can differ from adding the
    two one after the other. *)
Remark tiered_gate_sum_grouping :
  TieredReward.compute true (tiered_example 1e16) () []
    = (Ret 10000000000000002,
       ["key_press"; "sustain"; "energy"; "fingering"; "forearm"]) ∧
  1e16 + 0.2 + 0.1 + 1.0 + 1.0 = 1e16.
Proof. split; reflexivity. Qed.

Lemma tiered_compute_without_fingering_raises_witness :
  (∃ e w',
     TieredReward.compute true
       (TieredReward.after
          (TieredReward.__init__
             (constant "key_press" 0.6) (constant "sustain" 0.2)
             (constant "energy" 1.0))
          [TieredReward.Add "forearm_reward" (constant "forearm" 1.0);
           TieredReward.Remove "fingering_reward";
           TieredReward.Add "fingering" (constant "fingering" 0.1)])
       () []
     = (Raise e, w')).
Proof.
  refine (proj1 (tiered_compute_without_fingering_raises true
                   (constant "key_press" 0.6) (constant "sustain" 0.2)
                   (constant "energy" 1.0) _ () [] eq_refl _)).
  intros fn Hin. repeat (apply elem_of_cons in Hin as [Hin|Hin]; [discriminate|]).
  by apply elem_of_nil in Hin.
Defined.

(** C3, without the condition on assertions, does not hold: when the
    interpreter runs with [__debug__] false, [assert False] is no statement
    any more, and [compute] on an instance without a fingering function
    returns [0.6 + 0.2 + 0.0 + (1.0 + 1.0)]. *)
Lemma tiered_compute_without_fingering_optimized :
  TieredReward.fingering_reward_ (tiered_without_fingering 0.6) = None ∧
  TieredReward.compute false (tiered_without_fingering 0.6) () []
    = (Ret 2.8, ["key_press"; "sustain"; "energy"; "forearm"]).
Proof. split; reflexivity. Qed.

Lemma tiered_compute_calls_mandatory_before_abort_witness :
  TieredReward.compute true
    (TieredReward.after
       (TieredReward.__init__
          (constant "key_press" 0.6) (constant "sustain" 0.2)
          (constant "energy" 1.0))
       [TieredReward.Add "forearm_reward" (constant "forearm" 1.0)])
    () []
  = (Raise AssertionError, ["key_press"; "sustain"; "energy"]).
Proof.
  refine (tiered_compute_calls_mandatory_before_abort true
            (constant "key_press" 0.6) (constant "sustain" 0.2)
            (constant "energy" 1.0) _ () 0.6 0.2 1.0
            [] ["key_press"] ["key_press"; "sustain"]
            ["key_press"; "sustain"; "energy"] eq_refl _
            eq_refl eq_refl eq_refl).
  intros fn Hin. repeat (apply elem_of_cons in Hin as [Hin|Hin]; [discriminate|]).
  by apply elem_of_nil in Hin.
Defined.

(** C10, without the condition on assertions, does not hold: with
    [__debug__] false no failure surfaces at all; after the three mandatory
    functions, [compute] on a newly built instance goes on and returns. *)
Lemma tiered_compute_no_abort_optimized :
  TieredReward.fingering_reward_
    (TieredReward.__init__
       (constant "key_press" 0.3) (constant "sustain" 0.2)
       (constant "energy" 1.0)) = None ∧
  TieredReward.compute false
    (TieredReward.__init__
       (constant "key_press" 0.3) (constant "sustain" 0.2)
       (constant "energy" 1.0))
    () []
  = (Ret 0.5, ["key_press"; "sustain"; "energy"]).
Proof. split; reflexivity. Qed.

Lemma tiered_add_slots_witness :
  TieredReward.add (tiered_example 0.3) "bogus" (constant "bogus" 1.0)
    = (Raise (ValueError "Cannot add bogus"), tiered_example 0.3) ∧
  ∃ self', TieredReward.add (tiered_example 0.3) "forearm_reward"
             (constant "other" 2.0) = (Ret (), self').
Proof.
  pose proof (tiered_add_slots (tiered_example 0.3) "bogus"
                (constant "bogus" 1.0)) as (_ & _ & Hbogus & _).
  pose proof (tiered_add_slots (tiered_example 0.3) "forearm_reward"
                (constant "other" 2.0)) as (_ & _ & _ & Hiff).
  split.
  - apply Hbogus; discriminate.
  - apply Hiff. by right.
Defined.

(** ** Dicts *)

Section DictFacts.
Context {V : Type}.
Implicit Types (d : dict V) (k : string) (v : V).

Lemma dict_get_None d k : dict_get d k = None ↔ k ∉ keys d.
Proof.
  unfold keys. induction d as [|[k' v'] d IH]; simpl.
  - split; [intros _; apply not_elem_of_nil|done].
  - rewrite not_elem_of_cons. case_decide; subst.
    + split; [done|]. by intros [? _].
    + rewrite IH. intuition congruence.
Qed.

Lemma dict_get_Some_key d k v : dict_get d k = Some v → k ∈ keys d.
Proof.
  intros Hget. destruct (decide (k ∈ keys d)) as [|Hno]; [done|].
  apply dict_get_None in Hno. congruence.
Qed.

Lemma dict_get_set_eq d k v : dict_get (dict_set d k v) k = Some v.
Proof.
  induction d as [|[k' v'] d IH]; simpl.
  - by rewrite decide_True.
  - case_decide; subst; simpl.
    + by rewrite decide_True.
    + by rewrite decide_False.
Qed.

Lemma dict_get_set_ne d k k' v :
  k ≠ k' → dict_get (dict_set d k v) k' = dict_get d k'.
Proof.
  intros Hne. induction d as [|[k0 v0] d IH]; simpl.
  - by rewrite decide_False.
  - case_decide; subst; simpl.
    + by rewrite !decide_False.
    + by rewrite IH.
Qed.

Lemma dict_set_fresh d k v : k ∉ keys d → dict_set d k v = d ++ [(k, v)].
Proof.
  unfold keys. induction d as [|[k' v'] d IH]; simpl; [done|].
  rewrite not_elem_of_cons. intros [Hne Hnin].
  rewrite decide_False by done. by rewrite IH.
Qed.

Lemma keys_dict_set_present d k v :
  k ∈ keys d → keys (dict_set d k v) = keys d.
Proof.
  unfold keys. induction d as [|[k' v'] d IH]; simpl.
  - intros Hin. by apply elem_of_nil in Hin.
  - case_decide; subst; simpl; [done|].
    rewrite elem_of_cons. intros [?|Hin]; [congruence|]. f_equal. by apply IH.
Qed.

Lemma keys_dict_set d k v :
  keys (dict_set d k v)
  = if decide (k ∈ keys d) then keys d else keys d ++ [k].
Proof.
  case_decide.
  - by apply keys_dict_set_present.
  - rewrite dict_set_fresh by done. unfold keys. by rewrite fmap_app.
Qed.

Lemma NoDup_keys_dict_set d k v :
  NoDup (keys d) → NoDup (keys (dict_set d k v)).
Proof.
  intros Hnd. rewrite keys_dict_set. case_decide; [done|].
  apply NoDup_app. split; [done|]. split; [|apply NoDup_singleton].
  intros x Hx Hk. apply list_elem_of_singleton in Hk. by subst.
Qed.

Lemma dict_del_None d k : dict_del d k = None ↔ k ∉ keys d.
Proof.
  unfold keys. induction d as [|[k' v'] d IH]; simpl.
  - split; [intros _; apply not_elem_of_nil|done].
  - rewrite not_elem_of_cons. case_decide; subst.
    + split; [done|]. by intros [? _].
    + rewrite fmap_None, IH. intuition congruence.
Qed.

Lemma filter_absent_key d k : k ∉ keys d → filter (λ kv, kv.1 ≠ k) d = d.
Proof.
  unfold keys. induction d as [|[k' v'] d IH]; [done|].
  rewrite fmap_cons, not_elem_of_cons. cbn [fst]. intros [Hne Hnin].
  rewrite filter_cons_True by (simpl; congruence). by rewrite IH.
Qed.

(** Deleting a key keeps the other items, in their order. *)
Lemma dict_del_Some d k d' :
  NoDup (keys d) → dict_del d k = Some d' →
  d' = filter (λ kv, kv.1 ≠ k) d.
Proof.
  unfold keys. revert d'. induction d as [|[k' v'] d IH]; intros d'; [done|].
  rewrite fmap_cons, NoDup_cons. cbn [dict_del fst].
  intros [Hk' Hnd]. case_decide; subst.
  - intros [= <-].
    rewrite filter_cons_False by (simpl; intros Hkk; by apply Hkk).
    by rewrite filter_absent_key.
  - destruct (dict_del d k) as [d0|] eqn:Hdel; simpl; [|done].
    intros [= <-]. rewrite filter_cons_True by done.
    f_equal. by apply IH.
Qed.

Lemma keys_filter_ne d k :
  keys (filter (λ kv, kv.1 ≠ k) d) = filter (λ x, x ≠ k) (keys d).
Proof.
  unfold keys. induction d as [|[k' v'] d IH]; [done|].
  rewrite fmap_cons. cbn [fst].
  destruct (decide (k' = k)) as [->|Hne].
  - by rewrite !filter_cons_False by (simpl; intros Hkk; by apply Hkk).
  - rewrite !filter_cons_True by done. rewrite fmap_cons. cbn [fst].
    by rewrite IH.
Qed.

Lemma dict_get_filter_ne d k k' :
  k' ≠ k → dict_get (filter (λ kv, kv.1 ≠ k) d) k' = dict_get d k'.
Proof.
  intros Hne. induction d as [|[k0 v0] d IH]; [done|].
  destruct (decide (k0 = k)) as [->|Hne0].
  - rewrite filter_cons_False by (simpl; intros Hkk; by apply Hkk).
    cbn [dict_get]. by rewrite decide_False.
  - rewrite filter_cons_True by done. cbn [dict_get]. by rewrite IH.
Qed.

End DictFacts.

Section RecordAll.
Context {V : Type}.
Implicit Types (d : dict V) (k : string) (v : V).

Lemma record_all_absent names : ∀ d (rs : list V) k,
  k ∉ names → dict_get (record_all d names rs) k = dict_get d k.
Proof.
  induction names as [|n names IH]; intros d rs k Hk; [done|].
  apply not_elem_of_cons in Hk as [Hne Hk].
  destruct rs as [|r rs]; [done|]. simpl.
  rewrite IH by done. by apply dict_get_set_ne.
Qed.

Lemma record_all_lookup names : ∀ d (rs : list V) i k v,
  NoDup names → names !! i = Some k → rs !! i = Some v →
  dict_get (record_all d names rs) k = Some v.
Proof.
  induction names as [|n names IH]; intros d rs i k v Hnd Hk Hv; [done|].
  apply NoDup_cons in Hnd as [Hn Hnd].
  destruct rs as [|r rs]; [by destruct i|].
  destruct i as [|i]; simpl in *.
  - simplify_eq. rewrite record_all_absent by done. apply dict_get_set_eq.
  - by eapply IH.
Qed.

Lemma record_all_NoDup names : ∀ d (rs : list V),
  NoDup (keys d) → NoDup (keys (record_all d names rs)).
Proof.
  induction names as [|n names IH]; intros d rs Hnd; [done|].
  destruct rs as [|r rs]; [done|]. simpl.
  by apply IH, NoDup_keys_dict_set.
Qed.

Lemma record_all_fresh (kw : dict V) : ∀ d,
  NoDup (keys (d ++ kw)) → record_all d (keys kw) kw.*2 = d ++ kw.
Proof.
  induction kw as [|[k v] kw IH]; intros d Hnd; simpl.
  - by rewrite app_nil_r.
  - rewrite dict_set_fresh.
    + rewrite IH; rewrite <- app_assoc; done.
    + unfold keys in Hnd. rewrite fmap_app in Hnd.
      apply NoDup_app in Hnd as (_ & Hdisj & _).
      intros Hin. apply (Hdisj k Hin). left.
Qed.
End RecordAll.

(** ** Properties of [CompositeReward] *)

Section CompositeRewardSpec.
Context {Physics World : Type}.
Abbreviation CFn := (RewardFn Physics World).
Abbreviation cstate := (CompositeReward.state Physics World).
Implicit Types (self : CompositeReward.t) (σ : cstate).
Implicit Types (physics : Physics) (name : string).
Implicit Types (fns items : dict CFn) (ts : dict Reward).


Lemma registered_lookup self σ fns :
  CompositeReward.registered self σ = Some fns ↔
  CompositeReward.heap σ !! CompositeReward._reward_fns self
    = Some (CompositeReward.FnDict fns).
Proof.
  unfold CompositeReward.registered.
  destruct (CompositeReward.heap σ !! _) as [[d|d]|]; split; congruence.
Qed.

Lemma snapshot_lookup self σ ts :
  CompositeReward.snapshot self σ = Some ts ↔
  CompositeReward.heap σ !! CompositeReward._reward_terms self
    = Some (CompositeReward.TermDict ts).
Proof.
  unfold CompositeReward.snapshot.
  destruct (CompositeReward.heap σ !! _) as [[d|d]|]; split; congruence.
Qed.

Lemma attributes_distinct self σ fns ts :
  CompositeReward.registered self σ = Some fns →
  CompositeReward.snapshot self σ = Some ts →
  CompositeReward._reward_fns self ≠ CompositeReward._reward_terms self.
Proof.
  rewrite registered_lookup, snapshot_lookup. intros Hf Ht Heq.
  rewrite Heq in Hf. congruence.
Qed.

Lemma update_same σ l o :
  CompositeReward.heap σ !! l = Some o → CompositeReward.update l o σ = σ.
Proof.
  intros Hl. destruct σ as [h w]. unfold CompositeReward.update; simpl in *.
  by rewrite insert_id.
Qed.

Lemma update_update σ l o o' :
  CompositeReward.update l o (CompositeReward.update l o' σ)
  = CompositeReward.update l o σ.
Proof. unfold CompositeReward.update; simpl. by rewrite insert_insert_eq. Qed.

Lemma snapshot_update_terms self σ ts :
  CompositeReward.snapshot self
    (CompositeReward.update (CompositeReward._reward_terms self)
       (CompositeReward.TermDict ts) σ) = Some ts.
Proof. apply snapshot_lookup. simpl. by rewrite lookup_insert_eq. Qed.

Lemma registered_update_fns self σ fns :
  CompositeReward.registered self
    (CompositeReward.update (CompositeReward._reward_fns self)
       (CompositeReward.FnDict fns) σ) = Some fns.
Proof. apply registered_lookup. simpl. by rewrite lookup_insert_eq. Qed.

Lemma registered_update_other self σ l o :
  l ≠ CompositeReward._reward_fns self →
  CompositeReward.registered self (CompositeReward.update l o σ)
  = CompositeReward.registered self σ.
Proof.
  intros Hne. unfold CompositeReward.registered; simpl.
  by rewrite lookup_insert_ne.
Qed.

Lemma snapshot_update_other self σ l o :
  l ≠ CompositeReward._reward_terms self →
  CompositeReward.snapshot self (CompositeReward.update l o σ)
  = CompositeReward.snapshot self σ.
Proof.
  intros Hne. unfold CompositeReward.snapshot; simpl.
  by rewrite lookup_insert_ne.
Qed.

Lemma fns_items_run self σ fns :
  CompositeReward.registered self σ = Some fns →
  CompositeReward.fns_items (CompositeReward._reward_fns self) σ
    = Some (Ret fns, σ).
Proof.
  rewrite registered_lookup. intros Hf.
  unfold CompositeReward.fns_items, CompositeReward.bind, CompositeReward.load.
  by rewrite Hf.
Qed.

Lemma add_run self σ fns name (reward_fn : CFn) :
  CompositeReward.registered self σ = Some fns →
  CompositeReward.add self name reward_fn σ
    = Some (Ret (),
            CompositeReward.update (CompositeReward._reward_fns self)
              (CompositeReward.FnDict (dict_set fns name reward_fn)) σ).
Proof.
  intros Hf. unfold CompositeReward.add, CompositeReward.fns_setitem.
  unfold CompositeReward.bind at 1. by rewrite (fns_items_run _ _ _ Hf).
Qed.

Lemma remove_run self σ fns name :
  CompositeReward.registered self σ = Some fns →
  CompositeReward.remove self name σ
    = match dict_del fns name with
      | Some fns' =>
          Some (Ret (),
                CompositeReward.update (CompositeReward._reward_fns self)
                  (CompositeReward.FnDict fns') σ)
      | None => Some (Raise (KeyError name), σ)
      end.
Proof.
  intros Hf. unfold CompositeReward.remove, CompositeReward.fns_delitem.
  unfold CompositeReward.bind at 1. rewrite (fns_items_run _ _ _ Hf).
  by destruct (dict_del fns name).
Qed.

Lemma terms_setitem_run self σ ts name (rew : Reward) :
  CompositeReward.snapshot self σ = Some ts →
  CompositeReward.terms_setitem (CompositeReward._reward_terms self) name rew σ
    = Some (Ret (),
            CompositeReward.update (CompositeReward._reward_terms self)
              (CompositeReward.TermDict (dict_set ts name rew)) σ).
Proof.
  rewrite snapshot_lookup. intros Ht.
  unfold CompositeReward.terms_setitem, CompositeReward.terms_items,
    CompositeReward.bind, CompositeReward.load.
  by rewrite Ht.
Qed.

(** One turn of the loop of [compute], when the function returns. *)
Lemma compute_loop_step self physics name (reward_fn : CFn) items σ ts
    (acc rew : float) w1 :
  CompositeReward.snapshot self σ = Some ts →
  reward_fn physics (CompositeReward.world σ) = (Ret rew, w1) →
  CompositeReward.compute_loop self physics ((name, reward_fn) :: items) acc σ
  = CompositeReward.compute_loop self physics items (acc + rew)
      (CompositeReward.update (CompositeReward._reward_terms self)
         (CompositeReward.TermDict (dict_set ts name rew))
         (CompositeReward.set_world w1 σ)).
Proof.
  intros Hts Hcall. simpl. unfold CompositeReward.bind at 1.
  unfold CompositeReward.lift, call. rewrite Hcall.
  unfold CompositeReward.bind at 1.
  assert (CompositeReward.snapshot self (CompositeReward.set_world w1 σ)
          = Some ts) as Hts1 by exact Hts.
  by rewrite (terms_setitem_run self _ ts name rew Hts1).
Qed.

(** One turn of the loop of [compute], when the function raises. *)
Lemma compute_loop_step_raise self physics name (reward_fn : CFn) items σ
    (acc : float) e w1 :
  reward_fn physics (CompositeReward.world σ) = (Raise e, w1) →
  CompositeReward.compute_loop self physics ((name, reward_fn) :: items) acc σ
  = Some (Raise e, CompositeReward.set_world w1 σ).
Proof.
  intros Hcall. simpl. unfold CompositeReward.bind at 1.
  unfold CompositeReward.lift, call. by rewrite Hcall.
Qed.

Lemma compute_loop_returns self physics items : ∀ σ ts (acc : float) rs w',
  CompositeReward.snapshot self σ = Some ts →
  CompositeReward.returns physics (CompositeReward.world σ) items rs w' →
  CompositeReward.compute_loop self physics items acc σ
  = Some (Ret (foldl PrimFloat.add acc rs),
          CompositeReward.set_world w'
            (CompositeReward.update (CompositeReward._reward_terms self)
               (CompositeReward.TermDict (record_all ts (keys items) rs)) σ)).
Proof.
  induction items as [|[name fn] items IH]; intros σ ts acc rs w' Hts Hret;
    inversion Hret; subst.
  - simpl. unfold CompositeReward.ret. do 2 f_equal.
    rewrite update_same by by apply snapshot_lookup. by destruct σ.
  - erewrite compute_loop_step by done.
    erewrite IH; [|apply snapshot_update_terms|done].
    by rewrite update_update.
Qed.

Lemma compute_loop_raises self physics pre name (reward_fn : CFn) post :
  ∀ σ ts (acc : float) rs w1 e w2,
  CompositeReward.snapshot self σ = Some ts →
  CompositeReward.returns physics (CompositeReward.world σ) pre rs w1 →
  reward_fn physics w1 = (Raise e, w2) →
  CompositeReward.compute_loop self physics
    (pre ++ (name, reward_fn) :: post) acc σ
  = Some (Raise e,
          CompositeReward.set_world w2
            (CompositeReward.update (CompositeReward._reward_terms self)
               (CompositeReward.TermDict (record_all ts (keys pre) rs)) σ)).
Proof.
  induction pre as [|[n fn] pre IH]; intros σ ts acc rs w1 e w2 Hts Hret Hcall;
    inversion Hret; subst.
  - simpl app. erewrite compute_loop_step_raise by done. simpl.
    by rewrite update_same by by apply snapshot_lookup.
  - rewrite <- app_comm_cons. erewrite compute_loop_step by done.
    erewrite IH; [|apply snapshot_update_terms|done|done].
    by rewrite update_update.
Qed.

(** Whatever the functions do, the loop ends, and it changes nothing but the
    world and the snapshot entries of the names it visits. *)
Lemma compute_loop_frame self physics items : ∀ σ ts (acc : float),
  CompositeReward.snapshot self σ = Some ts →
  ∃ r ts' w',
    CompositeReward.compute_loop self physics items acc σ
    = Some (r, CompositeReward.set_world w'
                 (CompositeReward.update (CompositeReward._reward_terms self)
                    (CompositeReward.TermDict ts') σ)) ∧
    (NoDup (keys ts) → NoDup (keys ts')) ∧
    (∀ name, name ∉ keys items → dict_get ts' name = dict_get ts name).
Proof.
  induction items as [|[name fn] items IH]; intros σ ts acc Hts.
  - exists (Ret acc), ts, (CompositeReward.world σ). split; [|done].
    simpl. unfold CompositeReward.ret. do 2 f_equal.
    rewrite update_same by by apply snapshot_lookup. by destruct σ.
  - destruct (fn physics (CompositeReward.world σ)) as [[rew|e] w1] eqn:Hcall.
    + erewrite compute_loop_step by done.
      edestruct (IH (CompositeReward.update (CompositeReward._reward_terms self)
                       (CompositeReward.TermDict (dict_set ts name rew))
                       (CompositeReward.set_world w1 σ)))
        as (r & ts' & w' & -> & Hnd & Hframe);
        [apply snapshot_update_terms|].
      exists r, ts', w'. split; [by rewrite update_update|]. split.
      * intros Hts_nd. by apply Hnd, NoDup_keys_dict_set.
      * intros n Hn. apply not_elem_of_cons in Hn as [Hne Hn].
        rewrite Hframe by done. by apply dict_get_set_ne.
    + erewrite compute_loop_step_raise by done.
      exists (Raise e), ts, w1. split; [|done].
      by rewrite update_same by by apply snapshot_lookup.
Qed.

(** *** The class invariant *)

Lemma valid_set_world self σ w :
  CompositeReward.valid self σ →
  CompositeReward.valid self (CompositeReward.set_world w σ).
Proof. by intros (fns & ts & ? & ? & ? & ?); exists fns, ts. Qed.

Lemma valid_update_terms self σ ts' :
  CompositeReward.valid self σ → NoDup (keys ts') →
  CompositeReward.valid self
    (CompositeReward.update (CompositeReward._reward_terms self)
       (CompositeReward.TermDict ts') σ).
Proof.
  intros (fns & ts & Hf & Ht & Hnf & Hnt) Hnd. exists fns, ts'.
  split; [|by rewrite snapshot_update_terms].
  rewrite registered_update_other; [done|].
  intros Heq. by apply (attributes_distinct self σ fns ts).
Qed.

Lemma valid_update_fns self σ fns' :
  CompositeReward.valid self σ → NoDup (keys fns') →
  CompositeReward.valid self
    (CompositeReward.update (CompositeReward._reward_fns self)
       (CompositeReward.FnDict fns') σ).
Proof.
  intros (fns & ts & Hf & Ht & Hnf & Hnt) Hnd. exists fns', ts.
  split; [by rewrite registered_update_fns|]. split; [|done].
  rewrite snapshot_update_other; [done|].
  by apply (attributes_distinct self σ fns ts).
Qed.

Lemma term_update_fns self σ fns ts o name :
  CompositeReward.registered self σ = Some fns →
  CompositeReward.snapshot self σ = Some ts →
  CompositeReward.term self
    (CompositeReward.update (CompositeReward._reward_fns self) o σ) name
  = CompositeReward.term self σ name.
Proof.
  intros Hf Ht. unfold CompositeReward.term.
  rewrite snapshot_update_other; [done|].
  by apply (attributes_distinct self σ fns ts).
Qed.

(** [compute] on a valid instance: it ends, the registered functions stay,
    and only the world and the snapshot entries of registered names change. *)
Lemma compute_frame self σ fns physics :
  CompositeReward.valid self σ →
  CompositeReward.registered self σ = Some fns →
  ∃ r σ',
    CompositeReward.compute self physics σ = Some (r, σ') ∧
    CompositeReward.valid self σ' ∧
    CompositeReward.registered self σ' = Some fns ∧
    (∀ name, name ∉ keys fns →
       CompositeReward.term self σ' name = CompositeReward.term self σ name).
Proof.
  intros Hvalid Hf.
  pose proof Hvalid as (fns0 & ts & Hf0 & Ht & Hnf & Hnt).
  unfold CompositeReward.compute, CompositeReward.bind.
  rewrite (fns_items_run _ _ _ Hf).
  destruct (compute_loop_frame self physics fns σ ts 0%float Ht)
    as (r & ts' & w' & -> & Hnd & Hframe).
  eexists _, _. split; [done|]. split; [|split].
  - by apply valid_set_world, valid_update_terms; [|apply Hnd].
  - unfold CompositeReward.registered in *. simpl.
    rewrite lookup_insert_ne; [done|].
    intros Heq. by apply (attributes_distinct self σ fns ts).
  - intros name Hname. unfold CompositeReward.term.
    change (CompositeReward.snapshot self (CompositeReward.set_world w' ?s))
      with (CompositeReward.snapshot self s).
    rewrite snapshot_update_terms, Ht. simpl. by apply Hframe.
Qed.

(** What one call of a client does to a valid instance. *)
Lemma perform_run self σ fns (c : CompositeReward.method_call Physics World) :
  CompositeReward.valid self σ →
  CompositeReward.registered self σ = Some fns →
  ∃ σ',
    CompositeReward.perform self c σ = Some σ' ∧
    CompositeReward.valid self σ' ∧
    CompositeReward.registered self σ'
    = Some match c with
           | CompositeReward.Add name reward_fn => dict_set fns name reward_fn
           | CompositeReward.Remove name => default fns (dict_del fns name)
           | _ => fns
           end ∧
    (∀ name, name ∉ keys fns →
       CompositeReward.term self σ' name = CompositeReward.term self σ name).
Proof.
  intros Hvalid Hf.
  pose proof Hvalid as (fns0 & ts & Hf0 & Ht & Hnf & Hnt).
  assert (fns0 = fns) as -> by congruence.
  destruct c as [name fn|name|physics|k]; simpl.
  - rewrite (add_run _ _ _ _ _ Hf). simpl. eexists. split; [done|].
    split; [by apply valid_update_fns, NoDup_keys_dict_set|].
    split; [by rewrite registered_update_fns|].
    intros n _. by eapply term_update_fns.
  - rewrite (remove_run _ _ _ _ Hf).
    destruct (dict_del fns name) as [fns'|] eqn:Hdel; simpl.
    + eexists. split; [done|].
      assert (NoDup (keys fns')) as Hnd'.
      { rewrite (dict_del_Some _ _ _ Hnf Hdel), keys_filter_ne.
        by apply NoDup_filter. }
      split; [by apply valid_update_fns|].
      split; [by rewrite registered_update_fns|].
      intros n _. by eapply term_update_fns.
    + by exists σ.
  - destruct (compute_frame self σ fns physics Hvalid Hf)
      as (r & σ' & -> & Hv' & Hf' & Hframe).
    by exists σ'.
  - eexists. split; [done|]. split; [by apply valid_set_world|]. done.
Qed.

Lemma after_run self (cs : list (CompositeReward.method_call Physics World)) :
  ∀ σ, CompositeReward.valid self σ →
  ∃ σ', CompositeReward.after self cs σ = Some σ' ∧
        CompositeReward.valid self σ'.
Proof.
  induction cs as [|c cs IH]; intros σ Hvalid; simpl; [by exists σ|].
  pose proof Hvalid as (fns & _ & Hf & _).
  destruct (perform_run self σ fns c Hvalid Hf) as (σ1 & -> & Hv1 & _).
  simpl. by apply IH.
Qed.

(** Clients that only add under new names, compute, or step the world:
    the registered functions are the old ones followed by the added ones. *)
Lemma after_adds self (cs : list (CompositeReward.method_call Physics World)) :
  ∀ σ fns σ',
  CompositeReward.valid self σ →
  CompositeReward.registered self σ = Some fns →
  CompositeReward.never_removes cs →
  NoDup (keys (fns ++ CompositeReward.added cs)) →
  CompositeReward.after self cs σ = Some σ' →
  CompositeReward.valid self σ' ∧
  CompositeReward.registered self σ' = Some (fns ++ CompositeReward.added cs).
Proof.
  induction cs as [|c cs IH]; intros σ fns σ' Hvalid Hf Hrm Hnd; simpl.
  - intros [= <-]. by rewrite app_nil_r.
  - destruct (perform_run self σ fns c Hvalid Hf) as (σ1 & -> & Hv1 & Hf1 & _).
    simpl. intros Hafter.
    assert (CompositeReward.never_removes cs) as Hrm'.
    { intros n Hn. apply (Hrm n). by right. }
    destruct c as [name fn|name|physics|k].
    + simpl in Hnd. rewrite dict_set_fresh in Hf1.
      * destruct (IH σ1 _ σ' Hv1 Hf1 Hrm') as [Hv' Hf']; [|done|].
        { by rewrite <- app_assoc. }
        split; [done|]. by rewrite Hf', <- app_assoc.
      * unfold keys in Hnd. rewrite fmap_app in Hnd.
        apply NoDup_app in Hnd as (_ & Hdisj & _).
        intros Hin. apply (Hdisj name Hin). left.
    + destruct (Hrm name). left.
    + by apply (IH σ1 fns σ').
    + by apply (IH σ1 fns σ').
Qed.

(** Clients that never add under [name], once [name] is not registered:
    it stays unregistered and its snapshot entry stays as it is. *)
Lemma after_keeps_absent self name
    (cs : list (CompositeReward.method_call Physics World)) :
  ∀ σ fns σ',
  CompositeReward.valid self σ →
  CompositeReward.registered self σ = Some fns →
  name ∉ keys fns →
  (∀ reward_fn, CompositeReward.Add name reward_fn ∉ cs) →
  CompositeReward.after self cs σ = Some σ' →
  CompositeReward.valid self σ' ∧
  (∃ fns', CompositeReward.registered self σ' = Some fns' ∧
           name ∉ keys fns') ∧
  CompositeReward.term self σ' name = CompositeReward.term self σ name.
Proof.
  induction cs as [|c cs IH]; intros σ fns σ' Hvalid Hf Hname Hadd; simpl.
  - intros [= <-]. eauto.
  - destruct (perform_run self σ fns c Hvalid Hf)
      as (σ1 & -> & Hv1 & Hf1 & Hframe).
    simpl. intros Hafter.
    pose proof Hvalid as (fns0 & ts & Hf0 & Ht & Hnf & Hnt).
    assert (fns0 = fns) as -> by congruence.
    edestruct (IH σ1 _ σ' Hv1 Hf1) as (Hv' & Hreg & Hterm); [| |done|].
    + destruct c as [n fn|n|physics|k]; try done.
      * rewrite keys_dict_set. case_decide; [done|].
        rewrite elem_of_app, list_elem_of_singleton.
        intros [?| ->]; [done|]. apply (Hadd fn). left.
      * destruct (dict_del fns n) as [fns'|] eqn:Hdel; simpl; [|done].
        rewrite (dict_del_Some _ _ _ Hnf Hdel), keys_filter_ne.
        rewrite list_elem_of_filter. by intros [_ ?].
    + intros fn Hin. apply (Hadd fn). by right.
    + split; [done|]. split; [done|]. rewrite Hterm. by apply Hframe.
Qed.

(** *** Construction *)

Lemma init_loop_run (l : positive) (kwargs : dict CFn) : ∀ σ (d : dict CFn),
  CompositeReward.heap σ !! l = Some (CompositeReward.FnDict d) →
  CompositeReward.init_loop l kwargs σ
  = Some (Ret (),
          CompositeReward.update l
            (CompositeReward.FnDict (record_all d (keys kwargs) kwargs.*2)) σ).
Proof.
  induction kwargs as [|[name fn] kwargs IH]; intros σ d Hl; simpl.
  - unfold CompositeReward.ret. by rewrite update_same.
  - unfold CompositeReward.bind at 1, CompositeReward.fns_setitem.
    unfold CompositeReward.bind at 1, CompositeReward.fns_items.
    unfold CompositeReward.bind at 1, CompositeReward.load. rewrite Hl.
    simpl. erewrite IH; [|simpl; by rewrite lookup_insert_eq].
    by rewrite update_update.
Qed.

Lemma init_run (kwargs : dict CFn) σ0 :
  ∃ self σ1,
    CompositeReward.__init__ kwargs σ0 = Some (Ret self, σ1) ∧
    CompositeReward.valid self σ1 ∧
    CompositeReward.registered self σ1
      = Some (record_all [] (keys kwargs) kwargs.*2) ∧
    CompositeReward.snapshot self σ1 = Some [] ∧
    CompositeReward.world σ1 = CompositeReward.world σ0.
Proof.
  unfold CompositeReward.__init__.
  unfold CompositeReward.bind at 1, CompositeReward.alloc.
  set (l1 := fresh (dom (CompositeReward.heap σ0))).
  unfold CompositeReward.bind at 1.
  erewrite init_loop_run; [|simpl; by rewrite lookup_insert_eq].
  rewrite update_update.
  unfold CompositeReward.bind at 1.
  set (σ := CompositeReward.update l1 _ σ0).
  set (l2 := fresh (dom (CompositeReward.heap σ))).
  assert (l2 ≠ l1) as Hne.
  { intros Heq. apply (is_fresh (dom (CompositeReward.heap σ))).
    fold l2. rewrite Heq. apply elem_of_dom. simpl.
    rewrite lookup_insert_eq. by eexists. }
  eexists _, _. split; [done|].
  assert (CompositeReward.registered (CompositeReward.mk l1 l2)
            (CompositeReward.update l2 (CompositeReward.TermDict []) σ)
          = Some (record_all [] (keys kwargs) kwargs.*2)) as Hreg.
  { apply registered_lookup. simpl.
    rewrite lookup_insert_ne by done. by rewrite lookup_insert_eq. }
  assert (CompositeReward.snapshot (CompositeReward.mk l1 l2)
            (CompositeReward.update l2 (CompositeReward.TermDict []) σ)
          = Some []) as Hsnap.
  { apply snapshot_lookup. simpl. by rewrite lookup_insert_eq. }
  split; [|done].
  eexists _, _. split; [exact Hreg|]. split; [exact Hsnap|].
  split; [|apply NoDup_nil_2].
  apply record_all_NoDup, NoDup_nil_2.
Qed.

(** *** Main results *)

(** C1: an instance is built by [__init__] from keyword arguments and then
    used by a client that adds functions, computes and lets the world move,
    but never removes; the names given to [__init__] and to [add] are
    pairwise distinct. Then, if each registered function returns when it is
    called once with [physics], in registration order, [compute(physics)]
    makes exactly these calls (it ends in the world they produce), returns
    the sum of the returned values, and leaves in the snapshot, for each
    registered name, the value its function returned on this call; the other
    entries and the registered functions are unchanged. *)
Theorem composite_compute_sums_in_order
    (kwargs : dict CFn) σ0 self σ1
    (cs : list (CompositeReward.method_call Physics World)) σ2
    physics (rs : list Reward) w' :
  CompositeReward.__init__ kwargs σ0 = Some (Ret self, σ1) →
  CompositeReward.after self cs σ1 = Some σ2 →
  CompositeReward.never_removes cs →
  NoDup (keys (kwargs ++ CompositeReward.added cs)) →
  CompositeReward.returns physics (CompositeReward.world σ2)
    (kwargs ++ CompositeReward.added cs) rs w' →
  ∃ σ3,
    CompositeReward.compute self physics σ2
      = Some (Ret (CompositeReward.sum_of rs), σ3) ∧
    CompositeReward.world σ3 = w' ∧
    CompositeReward.registered self σ3
      = Some (kwargs ++ CompositeReward.added cs) ∧
    (∀ i name r,
       keys (kwargs ++ CompositeReward.added cs) !! i = Some name →
       rs !! i = Some r →
       CompositeReward.term self σ3 name = Some r) ∧
    (∀ name,
       name ∉ keys (kwargs ++ CompositeReward.added cs) →
       CompositeReward.term self σ3 name = CompositeReward.term self σ2 name).
Proof.
  intros Hinit Hafter Hrm Hnd Hret.
  destruct (init_run kwargs σ0) as (self' & σ1' & Hinit' & Hv1 & Hf1 & _).
  rewrite Hinit in Hinit'. injection Hinit' as <- <-.
  rewrite (record_all_fresh kwargs []) in Hf1.
  2:{ unfold keys in *. rewrite fmap_app in Hnd.
      by apply NoDup_app in Hnd as (? & _). }
  simpl in Hf1.
  destruct (after_adds self cs σ1 kwargs σ2 Hv1 Hf1 Hrm Hnd Hafter)
    as [Hv2 Hf2].
  pose proof Hv2 as (fns & ts & Hf & Ht & Hnf & Hnt).
  unfold CompositeReward.compute, CompositeReward.bind.
  rewrite (fns_items_run _ _ _ Hf2).
  rewrite (compute_loop_returns self physics _ σ2 ts 0 rs w' Ht Hret).
  eexists. split; [done|]. split; [done|].
  assert (CompositeReward._reward_terms self ≠ CompositeReward._reward_fns self)
    as Hne.
  { intros Heq. by apply (attributes_distinct self σ2 fns ts). }
  split; [|split].
  - change (CompositeReward.registered self (CompositeReward.set_world w' ?s))
      with (CompositeReward.registered self s).
    by rewrite registered_update_other.
  - intros i name r Hname Hr. unfold CompositeReward.term.
    change (CompositeReward.snapshot self (CompositeReward.set_world w' ?s))
      with (CompositeReward.snapshot self s).
    rewrite snapshot_update_terms. simpl.
    by apply (record_all_lookup _ _ _ i).
  - intros name Hname. unfold CompositeReward.term.
    change (CompositeReward.snapshot self (CompositeReward.set_world w' ?s))
      with (CompositeReward.snapshot self s).
    rewrite snapshot_update_terms, Ht. simpl.
    by apply record_all_absent.
Qed.

(** C4: on a valid instance whose registered functions are [pre], then the
    function under [name], then [post]: if the functions of [pre] return and
    the function under [name] raises [e], then [compute] raises the same
    [e]; the snapshot holds this call's values for the names of [pre], the
    entry of [name] and all other entries are as before the call, and no
    function of [post] is called: the world is the one the raising call
    left. *)
Theorem composite_compute_propagates self σ
    (pre : dict CFn) name (reward_fn : CFn) (post : dict CFn)
    physics (rs : list Reward) w1 e w2 :
  CompositeReward.valid self σ →
  CompositeReward.registered self σ = Some (pre ++ (name, reward_fn) :: post) →
  CompositeReward.returns physics (CompositeReward.world σ) pre rs w1 →
  reward_fn physics w1 = (Raise e, w2) →
  ∃ σ',
    CompositeReward.compute self physics σ = Some (Raise e, σ') ∧
    CompositeReward.world σ' = w2 ∧
    (∀ i n r, keys pre !! i = Some n → rs !! i = Some r →
       CompositeReward.term self σ' n = Some r) ∧
    CompositeReward.term self σ' name = CompositeReward.term self σ name ∧
    (∀ n, n ∉ keys pre →
       CompositeReward.term self σ' n = CompositeReward.term self σ n) ∧
    CompositeReward.registered self σ' = CompositeReward.registered self σ.
Proof.
  intros (fns & ts & Hf & Ht & Hnf & Hnt) Hreg Hret Hcall.
  assert (fns = pre ++ (name, reward_fn) :: post) as -> by congruence.
  unfold CompositeReward.compute, CompositeReward.bind.
  rewrite (fns_items_run _ _ _ Hf).
  rewrite (compute_loop_raises self physics pre name reward_fn post
             σ ts 0 rs w1 e w2 Ht Hret Hcall).
  unfold keys in Hnf. rewrite fmap_app, fmap_cons in Hnf. simpl in Hnf.
  apply NoDup_app in Hnf as (Hnd_pre & Hdisj & _).
  assert (∀ n, n ∉ keys pre →
            CompositeReward.term self
              (CompositeReward.set_world w2
                 (CompositeReward.update (CompositeReward._reward_terms self)
                    (CompositeReward.TermDict (record_all ts (keys pre) rs)) σ))
              n
            = CompositeReward.term self σ n) as Hframe.
  { intros n Hn. unfold CompositeReward.term.
    change (CompositeReward.snapshot self (CompositeReward.set_world w2 ?s))
      with (CompositeReward.snapshot self s).
    rewrite snapshot_update_terms, Ht. simpl. by apply record_all_absent. }
  eexists. split; [done|]. split; [done|]. split; [|split; [|split]].
  - intros i n r Hn Hr. unfold CompositeReward.term.
    change (CompositeReward.snapshot self (CompositeReward.set_world w2 ?s))
      with (CompositeReward.snapshot self s).
    rewrite snapshot_update_terms. simpl.
    by apply (record_all_lookup _ _ _ i).
  - apply Hframe. intros Hin. apply (Hdisj name Hin). left.
  - exact Hframe.
  - change (CompositeReward.registered self (CompositeReward.set_world w2 ?s))
      with (CompositeReward.registered self s).
    rewrite registered_update_other; [done|].
    intros Heq. by apply (attributes_distinct self σ _ ts Hf Ht).
Qed.

(** C5: on an instance whose registered functions are [fns], [remove] of a
    name that is not registered raises [KeyError] for that name and leaves
    the whole state, hence the registered functions and the snapshot, as it
    was. *)
Theorem composite_remove_absent self σ fns name :
  CompositeReward.registered self σ = Some fns →
  name ∉ keys fns →
  CompositeReward.remove self name σ = Some (Raise (KeyError name), σ).
Proof.
  intros Hf Hname. rewrite (remove_run _ _ _ _ Hf).
  apply dict_del_None in Hname. by rewrite Hname.
Qed.

(** C8: on a valid instance, [remove] of a registered name returns, and
    what is left registered is the other functions in their order. From then
    on, as long as the client does not [add] under that name again: the
    snapshot entry of the name stays what it was before the removal, the
    name is not registered, and a [compute] whose registered functions
    return sums their values only and again leaves the entry as it was. *)
Theorem composite_remove_then_compute self σ fns name :
  CompositeReward.valid self σ →
  CompositeReward.registered self σ = Some fns →
  name ∈ keys fns →
  ∃ σ1,
    CompositeReward.remove self name σ = Some (Ret (), σ1) ∧
    CompositeReward.registered self σ1
      = Some (filter (λ kv, kv.1 ≠ name) fns) ∧
    (∀ (cs : list (CompositeReward.method_call Physics World)) σ2,
       (∀ reward_fn, CompositeReward.Add name reward_fn ∉ cs) →
       CompositeReward.after self cs σ1 = Some σ2 →
       CompositeReward.term self σ2 name = CompositeReward.term self σ name ∧
       (∃ fns2,
          CompositeReward.registered self σ2 = Some fns2 ∧
          (name ∉ keys fns2) ∧
          (∀ physics (rs : list Reward) w',
             CompositeReward.returns physics (CompositeReward.world σ2)
               fns2 rs w' →
             ∃ σ3,
               CompositeReward.compute self physics σ2
                 = Some (Ret (CompositeReward.sum_of rs), σ3) ∧
               CompositeReward.term self σ3 name
                 = CompositeReward.term self σ name))).
Proof.
  intros Hvalid Hf Hname.
  pose proof Hvalid as (fns0 & ts & Hf0 & Ht & Hnf & Hnt).
  assert (fns0 = fns) as -> by congruence.
  rewrite (remove_run _ _ _ _ Hf).
  destruct (dict_del fns name) as [fns'|] eqn:Hdel.
  2:{ by apply dict_del_None in Hdel. }
  pose proof (dict_del_Some _ _ _ Hnf Hdel) as ->.
  set (rest := filter (λ kv, kv.1 ≠ name) fns).
  set (σ1 := CompositeReward.update _ _ σ).
  assert (NoDup (keys rest)) as Hnd_rest.
  { unfold rest. rewrite keys_filter_ne. by apply NoDup_filter. }
  assert (name ∉ keys rest) as Hname_rest.
  { unfold rest. rewrite keys_filter_ne, list_elem_of_filter.
    by intros [? _]. }
  assert (CompositeReward.valid self σ1) as Hv1 by by apply valid_update_fns.
  assert (CompositeReward.registered self σ1 = Some rest) as Hf1
    by apply registered_update_fns.
  assert (CompositeReward.term self σ1 name = CompositeReward.term self σ name)
    as Hterm1 by by eapply term_update_fns.
  exists σ1. split; [done|]. split; [done|].
  intros cs σ2 Hadd Hafter.
  destruct (after_keeps_absent self name cs σ1 rest σ2
              Hv1 Hf1 Hname_rest Hadd Hafter)
    as (Hv2 & (fns2 & Hf2 & Hname2) & Hterm2).
  split; [by rewrite Hterm2|].
  exists fns2. split; [done|]. split; [done|].
  intros physics rs w' Hret.
  destruct (compute_frame self σ2 fns2 physics Hv2 Hf2)
    as (r & σ3 & Hrun & _ & _ & Hframe).
  pose proof Hv2 as (fns3 & ts2 & _ & Ht2 & _).
  exists σ3. split.
  - rewrite Hrun. unfold CompositeReward.compute, CompositeReward.bind in Hrun.
    rewrite (fns_items_run _ _ _ Hf2) in Hrun.
    rewrite (compute_loop_returns self physics _ σ2 ts2 0 rs w' Ht2 Hret)
      in Hrun.
    by injection Hrun as <- <-.
  - rewrite Hframe by done. by rewrite Hterm2.
Qed.

(** C9, as the code has it: [reward_terms] returns the reference held in
    [_reward_terms], and changes nothing; the mapping the caller receives is
    the aggregator's snapshot dict, and an item the caller assigns through
    it is assigned in the aggregator's snapshot. *)
Theorem composite_reward_terms_alias self σ ts :
  CompositeReward.snapshot self σ = Some ts →
  CompositeReward.reward_terms self σ
    = Some (Ret (CompositeReward._reward_terms self), σ) ∧
  CompositeReward.terms_items (CompositeReward._reward_terms self) σ
    = Some (Ret ts, σ) ∧
  (∀ name (rew : Reward), ∃ σ',
     CompositeReward.client_setitem
       (CompositeReward._reward_terms self) name rew σ = Some (Ret (), σ') ∧
     CompositeReward.snapshot self σ' = Some (dict_set ts name rew)).
Proof.
  intros Ht. split; [done|]. split.
  - apply snapshot_lookup in Ht.
    unfold CompositeReward.terms_items, CompositeReward.bind,
      CompositeReward.load. by rewrite Ht.
  - intros name rew. unfold CompositeReward.client_setitem.
    rewrite (terms_setitem_run _ _ _ _ _ Ht).
    eexists. split; [done|]. apply snapshot_update_terms.
Qed.

End CompositeRewardSpec.

(** *** Concrete runs *)

Lemma example_state_valid : CompositeReward.valid example_self example_state.
Proof.
  eexists _, _. split; [reflexivity|]. split; [reflexivity|].
  split; compute_done.
Qed.

Lemma failing_state_valid : CompositeReward.valid example_self failing_state.
Proof.
  eexists _, _. split; [reflexivity|]. split; [reflexivity|].
  split; compute_done.
Qed.

Lemma composite_compute_sums_in_order_witness :
  ∃ σ3,
    CompositeReward.compute example_self () example_state
      = Some (Ret 0.6, σ3) ∧
    CompositeReward.world σ3 = ["key_press"; "sustain"; "fingering"] ∧
    CompositeReward.term example_self σ3 "key_press" = Some 0.3 ∧
    CompositeReward.term example_self σ3 "fingering" = Some 0.1.
Proof.
  destruct (composite_compute_sums_in_order
              example_kwargs empty_state example_self initial_state
              example_client example_state ()
              [0.3; 0.2; 0.1] ["key_press"; "sustain"; "fingering"])
    as (σ3 & Hrun & Hworld & _ & Hterms & _).
  - vm_compute. reflexivity.
  - vm_compute. reflexivity.
  - intros name Hin.
    repeat (apply elem_of_cons in Hin as [Hin|Hin]; [discriminate|]).
    by apply elem_of_nil in Hin.
  - compute_done.
  - repeat econstructor.
  - exists σ3. split; [exact Hrun|]. split; [exact Hworld|]. split.
    + by apply (Hterms 0%nat).
    + by apply (Hterms 2%nat).
Defined.

Lemma composite_compute_propagates_witness :
  ∃ σ',
    CompositeReward.compute example_self () failing_state
      = Some (Raise (OtherError "RuntimeError" "boom"), σ') ∧
    CompositeReward.world σ' = ["key_press"; "sustain"] ∧
    CompositeReward.term example_self σ' "key_press" = Some 0.3 ∧
    CompositeReward.term example_self σ' "sustain" = Some 0.2 ∧
    CompositeReward.term example_self σ' "fingering" = None.
Proof.
  destruct (composite_compute_propagates example_self failing_state
              [("key_press", constant "key_press" 0.3)]
              "sustain" (failing "sustain" (OtherError "RuntimeError" "boom"))
              [("fingering", constant "fingering" 0.1)]
              () [0.3] ["key_press"]
              (OtherError "RuntimeError" "boom") ["key_press"; "sustain"])
    as (σ' & Hrun & Hworld & Hpre & Hname & Hother & _).
  - exact failing_state_valid.
  - reflexivity.
  - repeat econstructor.
  - reflexivity.
  - exists σ'. split; [exact Hrun|]. split; [exact Hworld|]. split; [|split].
    + by apply (Hpre 0%nat).
    + by rewrite Hname.
    + rewrite Hother; [reflexivity|]. compute_done.
Defined.

Lemma composite_remove_absent_witness :
  CompositeReward.remove example_self "bogus" example_state
  = Some (Raise (KeyError "bogus"), example_state).
Proof.
  apply (composite_remove_absent example_self example_state
           [("key_press", constant "key_press" 0.3);
            ("sustain", constant "sustain" 0.2);
            ("fingering", constant "fingering" 0.1)]).
  - reflexivity.
  - compute_done.
Defined.

Lemma composite_remove_then_compute_witness :
  ∃ σ1 σ2 σ3,
    CompositeReward.remove example_self "sustain" example_state
      = Some (Ret (), σ1) ∧
    CompositeReward.after example_self
      [CompositeReward.Compute (); CompositeReward.Remove "sustain"] σ1
      = Some σ2 ∧
    CompositeReward.compute example_self () σ2 = Some (Ret 0.4, σ3) ∧
    CompositeReward.term example_self σ3 "sustain" = Some 0.2.
Proof.
  destruct (composite_remove_then_compute example_self example_state
              [("key_press", constant "key_press" 0.3);
               ("sustain", constant "sustain" 0.2);
               ("fingering", constant "fingering" 0.1)] "sustain")
    as (σ1 & Hrem & Hreg & Hafter).
  - exact example_state_valid.
  - reflexivity.
  - compute_done.
  - destruct (after_run example_self
                [CompositeReward.Compute (); CompositeReward.Remove "sustain"]
                σ1) as (σ2 & Hσ2 & _).
    { pose proof example_state_valid as Hv.
      apply (valid_update_fns _ _
               [("key_press", constant "key_press" 0.3);
                ("fingering", constant "fingering" 0.1)]) in Hv;
        [|compute_done].
      vm_compute in Hrem. injection Hrem as <-. exact Hv. }
    destruct (Hafter
                [CompositeReward.Compute (); CompositeReward.Remove "sustain"]
                σ2) as (Hterm & fns2 & Hfns2 & _ & Hcompute);
      [|exact Hσ2|].
    { intros fn Hin.
      repeat (apply elem_of_cons in Hin as [Hin|Hin]; [discriminate|]).
      by apply elem_of_nil in Hin. }
    assert (fns2 = [("key_press", constant "key_press" 0.3);
                    ("fingering", constant "fingering" 0.1)]) as ->.
    { vm_compute in Hrem. injection Hrem as <-.
      vm_compute in Hσ2. injection Hσ2 as <-.
      vm_compute in Hfns2. by injection Hfns2 as <-. }
    destruct (Hcompute () [0.3; 0.1]
                ((CompositeReward.world σ2 ++ ["key_press"]) ++ ["fingering"]))
      as (σ3 & Hrun & Hterm3).
    { repeat econstructor. }
    exists σ1, σ2, σ3. split; [exact Hrem|]. split; [exact Hσ2|].
    split; [exact Hrun|]. by rewrite Hterm3.
Defined.

Lemma composite_reward_terms_alias_witness :
  CompositeReward.reward_terms example_self example_state
    = Some (Ret 2%positive, example_state) ∧
  ∃ σ',
    CompositeReward.client_setitem 2%positive "bogus" 1.0 example_state
      = Some (Ret (), σ') ∧
    CompositeReward.snapshot example_self σ'
      = Some [("key_press", 0.3); ("sustain", 0.2); ("bogus", 1.0)].
Proof.
  destruct (composite_reward_terms_alias example_self example_state
              [("key_press", 0.3); ("sustain", 0.2)])
    as (Hget & _ & Hset).
  - reflexivity.
  - split; [exact Hget|]. exact (Hset "bogus" 1.0).
Defined.

(** C9, read as a read-only view, does not hold: the mapping that
    [reward_terms] returns is the snapshot dict itself, so the assignment
    [d["bogus"] = 1.0] on it is seen in the snapshot of the instance. *)
Lemma composite_reward_terms_not_read_only :
  ¬ reward_terms_read_only unit (list string).
Proof.
  intros Hro.
  specialize (Hro example_self example_state
                (CompositeReward.update 2
                   (CompositeReward.TermDict
                      [("key_press", 0.3); ("sustain", 0.2); ("bogus", 1.0)])
                   example_state)
                2%positive "bogus" 1.0 (Ret ())
                example_state_valid eq_refl).
  discriminate Hro. reflexivity.
Qed.

(** * Further properties *)

(** ** NaN at the gate *)

Lemma SFcompare_nan_r (x : spec_float) : SFcompare x S754_nan = None.
Proof. by destruct x. Qed.

Lemma SFeqb_refl_false (x : spec_float) : SFeqb x x = false → x = S754_nan.
Proof.
  unfold SFeqb. destruct x as [s|s| |s m e]; simpl; try done.
  - by destruct s.
  - destruct s; rewrite Z.compare_refl, Pos.compare_cont_refl; done.
Qed.

(** A float that differs from itself is a NaN, and nothing is below a NaN. *)
Lemma nan_not_gt (x y : float) : (x =? x) = false → (y <? x) = false.
Proof.
  rewrite FloatAxioms.eqb_spec, FloatAxioms.ltb_spec. intros Hnan.
  apply SFeqb_refl_false in Hnan. unfold SFltb.
  by rewrite Hnan, SFcompare_nan_r.
Qed.

(** ** More on [TieredReward] *)

Section TieredRewardMore.
Context {Physics World : Type}.
Abbreviation TFn' := (Callable Physics World).
Implicit Types (self : TieredReward.t Physics World) (physics : Physics).
Implicit Types (w : World) (name : string).

(** X1: the forearm channel is optional. With a fingering callable that
    is true when tested but no forearm function, and the four channels
    returning, [compute] calls key press, sustain, energy and fingering in
    that order and returns, with [0.0] in place of the forearm reward:
    [key_press + sustain + fingering], plus [energy + 0.0] when
    [key_press > 0.5]. This holds with assertions enabled or not. *)
Theorem tiered_compute_without_forearm (__debug__ : bool) self physics
    (ff : TFn') (k s e f : Reward) w0 w1 w2 w3 w4 :
  TieredReward.fingering_reward_ self = Some ff →
  TieredReward.forearm_reward_ self = None →
  truthy ff →
  invoke (TieredReward.key_press_reward_ self) physics w0 = (Ret k, w1) →
  invoke (TieredReward.sustain_reward_ self) physics w1 = (Ret s, w2) →
  invoke (TieredReward.energy_reward_ self) physics w2 = (Ret e, w3) →
  invoke ff physics w3 = (Ret f, w4) →
  ((k <=? 0.5) = true →
     TieredReward.compute __debug__ self physics w0
       = (Ret (k + s + f), w4)) ∧
  ((0.5 <? k) = true →
     TieredReward.compute __debug__ self physics w0
       = (Ret (k + s + f + (e + 0)), w4)).
Proof.
  intros Hff Hfa Htf Hk Hs He Hf.
  assert (TieredReward.compute __debug__ self physics w0
          = (Ret (if 0.5 <? k then k + s + f + (e + 0) else k + s + f), w4))
    as Hrun.
  { unfold TieredReward.compute, TieredReward.slot_truth,
      TieredReward.call_slot, ebind, call.
    rewrite Hk, Hs, He, Hff, Hfa.
    by rewrite (Htf w3), Hf, (Htf w4). }
  rewrite Hrun. split.
  - intros Hle. by rewrite (leb_not_gt _ _ Hle).
  - by intros ->.
Qed.

(** X2: a key-press reward that is NaN keeps the gate closed: with all five
    channels registered, the fingering and forearm callables true when
    tested, and every channel returning, the energy and forearm rewards are
    left out of the sum (which is then NaN itself), although both functions
    were called. *)
Theorem tiered_compute_nan_key_press (__debug__ : bool) self physics
    (ff fa : TFn') (k s e f a : Reward) w0 w1 w2 w3 w4 w5 :
  TieredReward.fingering_reward_ self = Some ff →
  TieredReward.forearm_reward_ self = Some fa →
  truthy ff →
  truthy fa →
  invoke (TieredReward.key_press_reward_ self) physics w0 = (Ret k, w1) →
  invoke (TieredReward.sustain_reward_ self) physics w1 = (Ret s, w2) →
  invoke (TieredReward.energy_reward_ self) physics w2 = (Ret e, w3) →
  invoke ff physics w3 = (Ret f, w4) →
  invoke fa physics w4 = (Ret a, w5) →
  (k =? k) = false →
  TieredReward.compute __debug__ self physics w0 = (Ret (k + s + f), w5).
Proof.
  intros Hff Hfa Htf Hta Hk Hs He Hf Ha Hnan.
  unfold TieredReward.compute, TieredReward.slot_truth,
    TieredReward.call_slot, ebind, call.
  rewrite Hk, Hs, He, Hff, Hfa.
  rewrite (Htf w3), Hf, (Htf w4). simpl. rewrite (Hta w4), Ha.
  by rewrite (nan_not_gt _ _ Hnan).
Qed.

(** X3: [compute] passes on the first exception a channel raises and calls
    no channel after it: the world is the one the raising call left. The
    order is key press, sustain, energy, fingering, forearm; the fingering
    and forearm callables are taken to be true when tested, as they must be
    to be called at all. *)
Theorem tiered_compute_propagates (__debug__ : bool) self physics
    (ff fa : TFn') (k s e f : Reward) (err : exn) w0 w1 w2 w3 w4 w5 :
  (invoke (TieredReward.key_press_reward_ self) physics w0 = (Raise err, w1) →
   TieredReward.compute __debug__ self physics w0 = (Raise err, w1)) ∧
  (invoke (TieredReward.key_press_reward_ self) physics w0 = (Ret k, w1) →
   invoke (TieredReward.sustain_reward_ self) physics w1 = (Raise err, w2) →
   TieredReward.compute __debug__ self physics w0 = (Raise err, w2)) ∧
  (invoke (TieredReward.key_press_reward_ self) physics w0 = (Ret k, w1) →
   invoke (TieredReward.sustain_reward_ self) physics w1 = (Ret s, w2) →
   invoke (TieredReward.energy_reward_ self) physics w2 = (Raise err, w3) →
   TieredReward.compute __debug__ self physics w0 = (Raise err, w3)) ∧
  (invoke (TieredReward.key_press_reward_ self) physics w0 = (Ret k, w1) →
   invoke (TieredReward.sustain_reward_ self) physics w1 = (Ret s, w2) →
   invoke (TieredReward.energy_reward_ self) physics w2 = (Ret e, w3) →
   TieredReward.fingering_reward_ self = Some ff →
   truthy ff →
   invoke ff physics w3 = (Raise err, w4) →
   TieredReward.compute __debug__ self physics w0 = (Raise err, w4)) ∧
  (invoke (TieredReward.key_press_reward_ self) physics w0 = (Ret k, w1) →
   invoke (TieredReward.sustain_reward_ self) physics w1 = (Ret s, w2) →
   invoke (TieredReward.energy_reward_ self) physics w2 = (Ret e, w3) →
   TieredReward.fingering_reward_ self = Some ff →
   truthy ff →
   invoke ff physics w3 = (Ret f, w4) →
   TieredReward.forearm_reward_ self = Some fa →
   truthy fa →
   invoke fa physics w4 = (Raise err, w5) →
   TieredReward.compute __debug__ self physics w0 = (Raise err, w5)).
Proof.
  unfold TieredReward.compute, TieredReward.slot_truth,
    TieredReward.call_slot, ebind, call.
  repeat split.
  - by intros ->.
  - by intros -> ->.
  - by intros -> -> ->.
  - intros -> -> -> -> Htf Hf. by rewrite (Htf w3), Hf.
  - intros -> -> -> -> Htf Hf -> Hta Ha.
    rewrite (Htf w3), Hf, (Htf w4). simpl. by rewrite (Hta w4), Ha.
Qed.

(** X4: calls of [add] for different names can be swapped, and of two calls
    for the same name the later one decides; this holds for names that
    [add] refuses too, which change nothing. *)
Theorem tiered_add_order self name1 name2 (fn1 fn2 : TFn') :
  (name1 ≠ name2 →
   TieredReward.after self
     [TieredReward.Add name1 fn1; TieredReward.Add name2 fn2]
   = TieredReward.after self
       [TieredReward.Add name2 fn2; TieredReward.Add name1 fn1]) ∧
  TieredReward.after self
    [TieredReward.Add name1 fn1; TieredReward.Add name1 fn2]
  = TieredReward.after self [TieredReward.Add name1 fn2].
Proof.
  unfold TieredReward.after, TieredReward.perform, TieredReward.add.
  split; [intros Hne|]; simpl; repeat case_decide; simplify_eq; done.
Qed.


(** X17: an optional slot counts as empty when the object in it is false
    when tested. A forearm object that is false is never called and [0.0]
    stands for its reward; a fingering object that is false is never called
    either, and with assertions enabled [compute] then fails with the
    [AssertionError], as if nothing had been registered. *)
Theorem tiered_compute_false_slot (__debug__ : bool) self physics
    (ff fa : TFn') (k s e f : Reward) w0 w1 w2 w3 w4 :
  invoke (TieredReward.key_press_reward_ self) physics w0 = (Ret k, w1) →
  invoke (TieredReward.sustain_reward_ self) physics w1 = (Ret s, w2) →
  invoke (TieredReward.energy_reward_ self) physics w2 = (Ret e, w3) →
  TieredReward.fingering_reward_ self = Some ff →
  (truthy ff → invoke ff physics w3 = (Ret f, w4) →
   TieredReward.forearm_reward_ self = Some fa → falsy fa →
   TieredReward.compute __debug__ self physics w0
   = (Ret (if 0.5 <? k then k + s + f + (e + 0) else k + s + f), w4)) ∧
  (falsy ff → __debug__ = true →
   TieredReward.compute __debug__ self physics w0
   = (Raise AssertionError, w3)).
Proof.
  intros Hk Hs He Hff.
  unfold TieredReward.compute, TieredReward.slot_truth,
    TieredReward.call_slot, ebind, call.
  rewrite Hk, Hs, He, Hff. split.
  - intros Htf Hf -> Hfa. rewrite (Htf w3), Hf, (Htf w4). simpl.
    by rewrite (Hfa w4).
  - intros Hfalse ->. rewrite (Hfalse w3). simpl. by rewrite (Hfalse w3).
Qed.

(** X18: when the interpreter runs with [__debug__] false, a missing
    fingering function does not stop [compute]: with the mandatory channels
    and a forearm function (true when tested) returning, it returns the sum
    with [0.0] in place of the fingering reward. *)
Theorem tiered_compute_optimized_without_fingering self physics
    (fa : TFn') (k s e a : Reward) w0 w1 w2 w3 w4 :
  TieredReward.fingering_reward_ self = None →
  TieredReward.forearm_reward_ self = Some fa →
  truthy fa →
  invoke (TieredReward.key_press_reward_ self) physics w0 = (Ret k, w1) →
  invoke (TieredReward.sustain_reward_ self) physics w1 = (Ret s, w2) →
  invoke (TieredReward.energy_reward_ self) physics w2 = (Ret e, w3) →
  invoke fa physics w3 = (Ret a, w4) →
  TieredReward.compute false self physics w0
  = (Ret (if 0.5 <? k then k + s + 0 + (e + a) else k + s + 0), w4).
Proof.
  intros Hff Hfa Hta Hk Hs He Ha.
  unfold TieredReward.compute, TieredReward.slot_truth,
    TieredReward.call_slot, ebind, call.
  rewrite Hk, Hs, He, Hff, Hfa. simpl. by rewrite (Hta w3), Ha.
Qed.
End TieredRewardMore.

(** ** More on dicts *)

Section DictMore.
Context {V : Type}.
Implicit Types (d pre post : dict V) (k : string) (v : V).

Lemma keys_app d1 d2 : keys (d1 ++ d2) = keys d1 ++ keys (V := V) d2.
Proof. unfold keys. by rewrite fmap_app. Qed.

Lemma NoDup_keys_middle pre k v post :
  NoDup (keys (pre ++ (k, v) :: post)) →
  (k ∉ keys pre) ∧ (k ∉ keys post) ∧ NoDup (keys (pre ++ post)).
Proof.
  rewrite !keys_app. unfold keys at 2. rewrite fmap_cons. cbn [fst].
  intros Hnd. apply NoDup_app in Hnd as (Hpre & Hdisj & Hpost).
  apply NoDup_cons in Hpost as [Hk Hpost]. split; [|split; [done|]].
  - intros Hin. apply (Hdisj k Hin). left.
  - apply NoDup_app. split; [done|]. split; [|done].
    intros x Hx Hx'. apply (Hdisj x Hx). by right.
Qed.

Lemma dict_set_middle pre k v post v' :
  k ∉ keys pre →
  dict_set (pre ++ (k, v) :: post) k v' = pre ++ (k, v') :: post.
Proof.
  unfold keys. induction pre as [|[k0 v0] pre IH]; simpl.
  - intros _. by rewrite decide_True.
  - rewrite not_elem_of_cons. intros [Hne Hnin].
    rewrite decide_False by done. by rewrite IH.
Qed.

Lemma dict_del_middle pre k v post :
  k ∉ keys pre → dict_del (pre ++ (k, v) :: post) k = Some (pre ++ post).
Proof.
  unfold keys. induction pre as [|[k0 v0] pre IH]; simpl.
  - intros _. by rewrite decide_True.
  - rewrite not_elem_of_cons. intros [Hne Hnin].
    rewrite decide_False by done. by rewrite IH.
Qed.

Lemma record_all_is_Some names : ∀ d (rs : list V) k,
  is_Some (dict_get d k) → is_Some (dict_get (record_all d names rs) k).
Proof.
  induction names as [|n names IH]; intros d rs k Hk; [done|].
  destruct rs as [|r rs]; [done|]. simpl. apply IH.
  destruct (decide (n = k)) as [->|Hne].
  - rewrite dict_get_set_eq. by eexists.
  - by rewrite dict_get_set_ne.
Qed.

Lemma record_all_cons_head names : ∀ d (rs : list V) k v,
  k ∉ names →
  record_all ((k, v) :: d) names rs = (k, v) :: record_all d names rs.
Proof.
  induction names as [|n names IH]; intros d rs k v Hk; [done|].
  apply not_elem_of_cons in Hk as [Hne Hk].
  destruct rs as [|r rs]; [done|]. simpl.
  rewrite decide_False by done. by apply IH.
Qed.

(** Recording under a prefix of the names a dict already follows rewrites
    the entries in place and extends the dict at its end. *)
Lemma record_all_prefix p : ∀ names d (rs : list V),
  NoDup names → keys d `prefix_of` names → p `prefix_of` names →
  length rs = length p →
  record_all d p rs = zip p rs ++ drop (length p) d.
Proof.
  induction p as [|n p IH]; intros names d rs Hnd Hd Hp Hlen; [done|].
  destruct rs as [|r rs]; [done|]. simpl in Hlen.
  destruct Hp as [rest ->]. simpl in Hnd.
  apply NoDup_cons in Hnd as [Hn Hnd].
  assert (n ∉ p) as Hnp.
  { intros Hin. apply Hn. apply elem_of_app. by left. }
  destruct d as [|[k0 v0] d]; simpl.
  - rewrite record_all_cons_head by done. f_equal.
    rewrite (IH (p ++ rest) [] rs); [by rewrite drop_nil| done | | | lia].
    + apply prefix_nil.
    + by eexists.
  - unfold keys in Hd. rewrite fmap_cons in Hd. cbn [fst] in Hd.
    destruct Hd as [rest' Heq]. simpl in Heq. injection Heq as -> Heq.
    rewrite decide_True by done.
    rewrite record_all_cons_head by done. f_equal.
    apply (IH (p ++ rest)); [done| |by eexists|lia].
    exists rest'. exact Heq.
Qed.

Lemma keys_zip (names : list string) (rs : list V) :
  length rs = length names → keys (zip names rs) = names.
Proof. intros Hlen. unfold keys. apply fst_zip. lia. Qed.

End DictMore.

(** ** More on [CompositeReward] *)

Section CompositeRewardMore.
Context {Physics World : Type}.
Abbreviation CFn' := (RewardFn Physics World).
Abbreviation cstate' := (CompositeReward.state Physics World).
Implicit Types (self : CompositeReward.t) (σ : cstate').
Implicit Types (physics : Physics) (name : string).
Implicit Types (fns items : dict CFn') (ts : dict Reward).

(** The loop of [compute], whatever the functions do: it records the values
    of the functions that returned, a prefix of the items, and stops at the
    end of the items or at the first function that raises. *)
Lemma compute_loop_shape self physics items : ∀ σ ts (acc : float),
  CompositeReward.snapshot self σ = Some ts →
  ∃ r (visited : dict CFn') (rs : list Reward) w',
    CompositeReward.compute_loop self physics items acc σ
    = Some (r, CompositeReward.set_world w'
                 (CompositeReward.update (CompositeReward._reward_terms self)
                    (CompositeReward.TermDict
                       (record_all ts (keys visited) rs)) σ)) ∧
    visited `prefix_of` items ∧ length rs = length visited.
Proof.
  induction items as [|[name fn] items IH]; intros σ ts acc Hts.
  - exists (Ret acc), [], [], (CompositeReward.world σ). split; [|done].
    simpl. unfold CompositeReward.ret. do 2 f_equal.
    rewrite update_same by by apply snapshot_lookup. by destruct σ.
  - destruct (fn physics (CompositeReward.world σ)) as [[rew|e] w1] eqn:Hcall.
    + erewrite compute_loop_step by done.
      edestruct (IH (CompositeReward.update (CompositeReward._reward_terms self)
                       (CompositeReward.TermDict (dict_set ts name rew))
                       (CompositeReward.set_world w1 σ)))
        as (r & visited & rs & w' & -> & Hpre & Hlen);
        [apply snapshot_update_terms|].
      exists r, ((name, fn) :: visited), (rew :: rs), w'.
      split; [by rewrite update_update|]. split.
      * by apply prefix_cons.
      * simpl. by rewrite Hlen.
    + erewrite compute_loop_step_raise by done.
      exists (Raise e), [], [], w1. split; [|split; [apply prefix_nil|done]].
      by rewrite update_same by by apply snapshot_lookup.
Qed.

Lemma compute_shape self σ fns ts physics :
  CompositeReward.registered self σ = Some fns →
  CompositeReward.snapshot self σ = Some ts →
  ∃ r (visited : dict CFn') (rs : list Reward) w',
    CompositeReward.compute self physics σ
    = Some (r, CompositeReward.set_world w'
                 (CompositeReward.update (CompositeReward._reward_terms self)
                    (CompositeReward.TermDict
                       (record_all ts (keys visited) rs)) σ)) ∧
    visited `prefix_of` fns ∧ length rs = length visited.
Proof.
  intros Hf Ht. unfold CompositeReward.compute, CompositeReward.bind.
  rewrite (fns_items_run _ _ _ Hf). by apply compute_loop_shape.
Qed.

(** Outside the two dicts of the instance, a client call leaves the store
    as it is. *)
Lemma perform_elsewhere self σ
    (c : CompositeReward.method_call Physics World) σ' (l : positive) :
  CompositeReward.valid self σ →
  CompositeReward.perform self c σ = Some σ' →
  l ≠ CompositeReward._reward_fns self →
  l ≠ CompositeReward._reward_terms self →
  CompositeReward.heap σ' !! l = CompositeReward.heap σ !! l.
Proof.
  intros (fns & ts & Hf & Ht & _) Hrun Hlf Hlt.
  destruct c as [name fn|name|physics|k]; simpl in Hrun.
  - rewrite (add_run _ _ _ _ _ Hf) in Hrun. injection Hrun as <-.
    simpl. by rewrite lookup_insert_ne.
  - rewrite (remove_run _ _ _ _ Hf) in Hrun.
    destruct (dict_del fns name); injection Hrun as <-; [|done].
    simpl. by rewrite lookup_insert_ne.
  - destruct (compute_shape self σ fns ts physics Hf Ht)
      as (r & visited & rs & w' & Hc & _).
    rewrite Hc in Hrun. injection Hrun as <-.
    simpl. by rewrite lookup_insert_ne.
  - by injection Hrun as <-.
Qed.

(** X6: [add] under a name that is registered replaces the function where
    it stands: the registration order, and so the order in which [compute]
    calls the functions, is unchanged, no second entry appears, and the
    snapshot and the world are untouched. *)
Theorem composite_add_overwrites_in_place self σ
    (pre : dict CFn') name (old new : CFn') (post : dict CFn') :
  CompositeReward.valid self σ →
  CompositeReward.registered self σ = Some (pre ++ (name, old) :: post) →
  ∃ σ',
    CompositeReward.add self name new σ = Some (Ret (), σ') ∧
    CompositeReward.registered self σ' = Some (pre ++ (name, new) :: post) ∧
    CompositeReward.snapshot self σ' = CompositeReward.snapshot self σ ∧
    CompositeReward.world σ' = CompositeReward.world σ.
Proof.
  intros (fns & ts & Hf & Ht & Hnf & _) Hreg.
  assert (fns = pre ++ (name, old) :: post) as -> by congruence.
  apply NoDup_keys_middle in Hnf as (Hpre & _ & _).
  rewrite (add_run _ _ _ _ _ Hf). eexists. split; [done|].
  rewrite registered_update_fns, dict_set_middle by done.
  split; [done|]. split; [|done].
  apply snapshot_update_other. by apply (attributes_distinct self σ _ ts Hf Ht).
Qed.

(** X7: [add] under a name that is not registered puts the function last in
    the registration order, and a [remove] of that name right after it
    gives back the state before the [add]. *)
Theorem composite_add_then_remove self σ fns name (reward_fn : CFn') :
  CompositeReward.registered self σ = Some fns →
  name ∉ keys fns →
  ∃ σ1,
    CompositeReward.add self name reward_fn σ = Some (Ret (), σ1) ∧
    CompositeReward.registered self σ1 = Some (fns ++ [(name, reward_fn)]) ∧
    CompositeReward.remove self name σ1 = Some (Ret (), σ).
Proof.
  intros Hf Hname. rewrite (add_run _ _ _ _ _ Hf). eexists. split; [done|].
  rewrite registered_update_fns, dict_set_fresh by done. split; [done|].
  rewrite (remove_run self _ (fns ++ [(name, reward_fn)]) name).
  2:{ by rewrite registered_update_fns. }
  rewrite dict_del_middle by done. rewrite app_nil_r, update_update.
  rewrite update_same; [done|]. by apply registered_lookup.
Qed.

(** X8: [remove] followed by [add] under the same name does not restore the
    place the name had: the function is then the last one [compute] calls. *)
Theorem composite_readd_moves_last self σ
    (pre : dict CFn') name (old new : CFn') (post : dict CFn') :
  CompositeReward.valid self σ →
  CompositeReward.registered self σ = Some (pre ++ (name, old) :: post) →
  ∃ σ1 σ2,
    CompositeReward.remove self name σ = Some (Ret (), σ1) ∧
    CompositeReward.registered self σ1 = Some (pre ++ post) ∧
    CompositeReward.add self name new σ1 = Some (Ret (), σ2) ∧
    CompositeReward.registered self σ2 = Some (pre ++ post ++ [(name, new)]).
Proof.
  intros (fns & ts & Hf & Ht & Hnf & _) Hreg.
  assert (fns = pre ++ (name, old) :: post) as -> by congruence.
  apply NoDup_keys_middle in Hnf as (Hpre & Hpost & _).
  rewrite (remove_run _ _ _ _ Hf), dict_del_middle by done.
  eexists _, _. split; [done|].
  split; [by rewrite registered_update_fns|].
  rewrite (add_run self _ (pre ++ post) name new)
    by by rewrite registered_update_fns.
  split; [done|]. rewrite registered_update_fns, dict_set_fresh.
  - by rewrite <- app_assoc.
  - rewrite keys_app, elem_of_app. by intros [?|?].
Qed.

Lemma after_adds_run self (kwargs : dict CFn') : ∀ σ fns,
  CompositeReward.registered self σ = Some fns →
  CompositeReward.after self
    ((λ kv, CompositeReward.Add kv.1 kv.2) <$> kwargs) σ
  = Some (CompositeReward.update (CompositeReward._reward_fns self)
            (CompositeReward.FnDict (record_all fns (keys kwargs) kwargs.*2))
            σ).
Proof.
  induction kwargs as [|[name fn] kwargs IH]; intros σ fns Hf; simpl.
  - rewrite update_same; [done|]. by apply registered_lookup.
  - rewrite (add_run _ _ _ _ _ Hf). simpl.
    erewrite IH; [|by rewrite registered_update_fns].
    by rewrite update_update.
Qed.

(** [__init__] spelled out: the references it takes are the first two not
    in use, whatever the keyword arguments. *)
Lemma init_explicit (kwargs : dict CFn') σ0 :
  let l1 := fresh (dom (CompositeReward.heap σ0)) in
  let l2 := fresh ({[l1]} ∪ dom (CompositeReward.heap σ0)) in
  (l1 ∉ dom (CompositeReward.heap σ0)) ∧
  (l2 ∉ dom (CompositeReward.heap σ0)) ∧
  l1 ≠ l2 ∧
  CompositeReward.__init__ kwargs σ0
  = Some (Ret (CompositeReward.mk l1 l2),
          CompositeReward.update l2 (CompositeReward.TermDict [])
            (CompositeReward.update l1
               (CompositeReward.FnDict (record_all [] (keys kwargs) kwargs.*2))
               σ0)).
Proof.
  intros l1 l2.
  assert (l2 ∉ {[l1]} ∪ dom (CompositeReward.heap σ0)) as Hl2
    by apply is_fresh.
  split; [apply is_fresh|]. split; [set_solver|]. split; [set_solver|].
  unfold CompositeReward.__init__.
  unfold CompositeReward.bind at 1, CompositeReward.alloc. fold l1.
  unfold CompositeReward.bind at 1.
  erewrite init_loop_run; [|simpl; by rewrite lookup_insert_eq].
  rewrite update_update. unfold CompositeReward.bind. simpl.
  by rewrite dom_insert_L.
Qed.

(** X9: keyword arguments are a shorthand for [add]: [__init__] with
    keyword arguments gives the same instance and the same state as
    [__init__] without any, followed by one [add] per argument in the order
    given. *)
Theorem composite_init_kwargs_as_adds (kwargs : dict CFn') σ0 :
  ∃ self σ1 σ2,
    CompositeReward.__init__ [] σ0 = Some (Ret self, σ1) ∧
    CompositeReward.after self
      ((λ kv, CompositeReward.Add kv.1 kv.2) <$> kwargs) σ1 = Some σ2 ∧
    CompositeReward.__init__ kwargs σ0 = Some (Ret self, σ2).
Proof.
  destruct (init_explicit [] σ0) as (_ & _ & Hne & ->).
  destruct (init_explicit kwargs σ0) as (_ & _ & _ & ->).
  eexists _, _, _. split; [done|]. split.
  - apply after_adds_run. apply registered_lookup. simpl.
    rewrite lookup_insert_ne by done. by rewrite lookup_insert_eq.
  - do 2 f_equal. unfold CompositeReward.update. simpl. f_equal.
    rewrite (insert_insert_ne _ _ _ _ _ Hne).
    by rewrite insert_insert_eq.
Qed.

Lemma after_elsewhere self
    (cs : list (CompositeReward.method_call Physics World)) (l : positive) :
  ∀ σ σ',
  CompositeReward.valid self σ →
  CompositeReward.after self cs σ = Some σ' →
  l ≠ CompositeReward._reward_fns self →
  l ≠ CompositeReward._reward_terms self →
  CompositeReward.heap σ' !! l = CompositeReward.heap σ !! l.
Proof.
  induction cs as [|c cs IH]; intros σ σ' Hvalid Hafter Hlf Hlt; simpl in *.
  - by injection Hafter as <-.
  - pose proof Hvalid as (fns & _ & Hf & _).
    destruct (perform_run self σ fns c Hvalid Hf) as (σ1 & Hrun & Hv1 & _).
    rewrite Hrun in Hafter. simpl in Hafter.
    rewrite (IH σ1 σ' Hv1 Hafter Hlf Hlt).
    by apply (perform_elsewhere self σ c).
Qed.

(** X10: instances do not share their dicts. An instance built while
    another one exists takes two new dicts, and whatever a client then does
    with the new instance, the registered functions and the snapshot of the
    other one stay as they were. *)
Theorem composite_instances_independent self1 σ (kwargs : dict CFn') self2 σ'
    (cs : list (CompositeReward.method_call Physics World)) σ'' :
  CompositeReward.valid self1 σ →
  CompositeReward.__init__ kwargs σ = Some (Ret self2, σ') →
  CompositeReward.after self2 cs σ' = Some σ'' →
  CompositeReward.registered self1 σ'' = CompositeReward.registered self1 σ ∧
  CompositeReward.snapshot self1 σ'' = CompositeReward.snapshot self1 σ ∧
  CompositeReward._reward_fns self2 ≠ CompositeReward._reward_fns self1 ∧
  CompositeReward._reward_fns self2 ≠ CompositeReward._reward_terms self1 ∧
  CompositeReward._reward_terms self2 ≠ CompositeReward._reward_fns self1 ∧
  CompositeReward._reward_terms self2 ≠ CompositeReward._reward_terms self1.
Proof.
  intros (fns & ts & Hf & Ht & _) Hinit Hafter.
  destruct (init_run kwargs σ) as (self' & σ1 & Hinit' & Hv2 & _).
  rewrite Hinit in Hinit'. injection Hinit' as <- <-.
  destruct (init_explicit kwargs σ) as (Hl1 & Hl2 & _ & Hexp).
  rewrite Hinit in Hexp. injection Hexp as -> ->.
  apply registered_lookup in Hf. apply snapshot_lookup in Ht.
  assert (CompositeReward._reward_fns self1 ∈ dom (CompositeReward.heap σ))
    as Hdf by (apply elem_of_dom; by eexists).
  assert (CompositeReward._reward_terms self1 ∈ dom (CompositeReward.heap σ))
    as Hdt by (apply elem_of_dom; by eexists).
  simpl in *.
  set (l1 := fresh (dom (CompositeReward.heap σ))) in *.
  set (l2 := fresh ({[l1]} ∪ dom (CompositeReward.heap σ))) in *.
  assert (l1 ≠ CompositeReward._reward_fns self1) as H11 by congruence.
  assert (l1 ≠ CompositeReward._reward_terms self1) as H12 by congruence.
  assert (l2 ≠ CompositeReward._reward_fns self1) as H21 by congruence.
  assert (l2 ≠ CompositeReward._reward_terms self1) as H22 by congruence.
  unfold CompositeReward.registered, CompositeReward.snapshot.
  rewrite !(after_elsewhere _ cs _ _ σ'' Hv2 Hafter) by done. simpl.
  by rewrite !lookup_insert_ne by done.
Qed.

Lemma add_remove_keep_snapshot self σ :
  CompositeReward.valid self σ →
  (∀ name (reward_fn : CFn') r σ',
     CompositeReward.add self name reward_fn σ = Some (r, σ') →
     CompositeReward.snapshot self σ' = CompositeReward.snapshot self σ) ∧
  (∀ name r σ',
     CompositeReward.remove self name σ = Some (r, σ') →
     CompositeReward.snapshot self σ' = CompositeReward.snapshot self σ).
Proof.
  intros (fns & ts & Hf & Ht & _).
  pose proof (attributes_distinct self σ fns ts Hf Ht) as Hne.
  split.
  - intros name fn r σ'. rewrite (add_run _ _ _ _ _ Hf). intros [= <- <-].
    by apply snapshot_update_other.
  - intros name r σ'. rewrite (remove_run _ _ _ _ Hf).
    destruct (dict_del fns name); intros [= <- <-]; [|done].
    by apply snapshot_update_other.
Qed.

(** X11: [add] and [remove], whether they return or raise, change neither
    the snapshot nor the world; [compute], whether it returns or raises,
    leaves the registered functions as they are. *)
Theorem composite_methods_frame self σ :
  CompositeReward.valid self σ →
  (∀ name (reward_fn : CFn') r σ',
     CompositeReward.add self name reward_fn σ = Some (r, σ') →
     CompositeReward.snapshot self σ' = CompositeReward.snapshot self σ ∧
     CompositeReward.world σ' = CompositeReward.world σ) ∧
  (∀ name r σ',
     CompositeReward.remove self name σ = Some (r, σ') →
     CompositeReward.snapshot self σ' = CompositeReward.snapshot self σ ∧
     CompositeReward.world σ' = CompositeReward.world σ) ∧
  (∀ physics r σ',
     CompositeReward.compute self physics σ = Some (r, σ') →
     CompositeReward.registered self σ' = CompositeReward.registered self σ).
Proof.
  intros Hvalid. pose proof Hvalid as (fns & ts & Hf & Ht & _).
  pose proof (attributes_distinct self σ fns ts Hf Ht) as Hne.
  split; [|split].
  - intros name fn r σ'. rewrite (add_run _ _ _ _ _ Hf). intros [= <- <-].
    split; [|done]. by apply snapshot_update_other.
  - intros name r σ'. rewrite (remove_run _ _ _ _ Hf).
    destruct (dict_del fns name); intros [= <- <-]; [|done].
    split; [|done]. by apply snapshot_update_other.
  - intros physics r σ' Hrun.
    destruct (compute_frame self σ fns physics Hvalid Hf)
      as (r' & σ1 & Hrun' & _ & Hf' & _).
    rewrite Hrun in Hrun'. injection Hrun' as <- <-. congruence.
Qed.

Lemma perform_keeps_entries self σ
    (c : CompositeReward.method_call Physics World) σ' name :
  CompositeReward.valid self σ →
  CompositeReward.perform self c σ = Some σ' →
  is_Some (CompositeReward.term self σ name) →
  is_Some (CompositeReward.term self σ' name).
Proof.
  intros Hvalid Hrun. pose proof Hvalid as (fns & ts & Hf & Ht & _).
  destruct (add_remove_keep_snapshot self σ Hvalid) as (Hadd & Hrem).
  unfold CompositeReward.term.
  destruct c as [n fn|n|physics|k]; simpl in Hrun.
  - destruct (CompositeReward.add self n fn σ) as [[r σ1]|] eqn:Hc;
      simplify_eq/=. by rewrite (Hadd _ _ _ _ Hc).
  - destruct (CompositeReward.remove self n σ) as [[r σ1]|] eqn:Hc;
      simplify_eq/=. by rewrite (Hrem _ _ _ Hc).
  - destruct (compute_shape self σ fns ts physics Hf Ht)
      as (r & visited & rs & w' & Hc & _).
    rewrite Hc in Hrun. simpl in Hrun. injection Hrun as <-.
    change (CompositeReward.snapshot self (CompositeReward.set_world w' ?s))
      with (CompositeReward.snapshot self s).
    rewrite snapshot_update_terms, Ht. simpl. apply record_all_is_Some.
  - by injection Hrun as <-.
Qed.

(** X12: an entry of the snapshot is never deleted: a name that
    [reward_terms] holds stays in it whatever calls a client makes, [remove]
    of that name included. *)
Theorem composite_snapshot_entries_persist self
    (cs : list (CompositeReward.method_call Physics World)) name :
  ∀ σ σ',
  CompositeReward.valid self σ →
  CompositeReward.after self cs σ = Some σ' →
  is_Some (CompositeReward.term self σ name) →
  is_Some (CompositeReward.term self σ' name).
Proof.
  induction cs as [|c cs IH]; intros σ σ' Hvalid Hafter Hname; simpl in *.
  - by injection Hafter as <-.
  - pose proof Hvalid as (fns & _ & Hf & _).
    destruct (perform_run self σ fns c Hvalid Hf) as (σ1 & Hrun & Hv1 & _).
    rewrite Hrun in Hafter. simpl in Hafter.
    apply (IH σ1 σ' Hv1 Hafter).
    by apply (perform_keeps_entries self σ c).
Qed.

(** X13: an instance built without keyword arguments has nothing to sum:
    [compute] returns [0.0], calls nothing, and leaves the state, with its
    empty snapshot, as it is. *)
Theorem composite_compute_nothing_registered σ0 self σ1 physics :
  CompositeReward.__init__ [] σ0 = Some (Ret self, σ1) →
  CompositeReward.compute self physics σ1 = Some (Ret 0, σ1) ∧
  CompositeReward.snapshot self σ1 = Some [].
Proof.
  intros Hinit.
  destruct (init_run [] σ0) as (self' & σ' & Hinit' & _ & Hf & Ht & _).
  rewrite Hinit in Hinit'. injection Hinit' as <- <-.
  split; [|done]. unfold CompositeReward.compute, CompositeReward.bind.
  by rewrite (fns_items_run _ _ _ Hf).
Qed.

Lemma sum_of_snoc (rs : list Reward) (r : Reward) :
  CompositeReward.sum_of (rs ++ [r]) = CompositeReward.sum_of rs + r.
Proof. unfold CompositeReward.sum_of. by rewrite foldl_app. Qed.

Lemma returns_snoc physics w (items : dict CFn') rs w1 name
    (reward_fn : CFn') r w2 :
  CompositeReward.returns physics w items rs w1 →
  reward_fn physics w1 = (Ret r, w2) →
  CompositeReward.returns physics w (items ++ [(name, reward_fn)])
    (rs ++ [r]) w2.
Proof.
  induction 1 as [w|w n fn r' w' items rs w1 Hcall Hret IH]; intros Hnew;
    simpl.
  - econstructor; [done|constructor].
  - econstructor; [done|by apply IH].
Qed.

Lemma returns_length physics w (items : dict CFn') rs w' :
  CompositeReward.returns physics w items rs w' → length rs = length items.
Proof. induction 1; simpl; congruence. Qed.

(** What [compute] does when every registered function returns. *)
Lemma compute_returns self σ fns ts physics (rs : list Reward) w' :
  CompositeReward.registered self σ = Some fns →
  CompositeReward.snapshot self σ = Some ts →
  CompositeReward.returns physics (CompositeReward.world σ) fns rs w' →
  CompositeReward.compute self physics σ
  = Some (Ret (CompositeReward.sum_of rs),
          CompositeReward.set_world w'
            (CompositeReward.update (CompositeReward._reward_terms self)
               (CompositeReward.TermDict (record_all ts (keys fns) rs)) σ)).
Proof.
  intros Hf Ht Hret. unfold CompositeReward.compute, CompositeReward.bind.
  rewrite (fns_items_run _ _ _ Hf).
  by rewrite (compute_loop_returns self physics _ σ ts 0 rs w' Ht Hret).
Qed.

(** X14: a function added under a new name is called last, and it adds its
    value to the total: where [compute] would return the sum of the values
    of the registered functions, after the [add] it returns that sum plus
    the value of the new function, and records that value under the new
    name. *)
Theorem composite_add_extends_sum self σ fns name (reward_fn : CFn')
    physics (rs : list Reward) (r : Reward) w1 w2 :
  CompositeReward.valid self σ →
  CompositeReward.registered self σ = Some fns →
  name ∉ keys fns →
  CompositeReward.returns physics (CompositeReward.world σ) fns rs w1 →
  reward_fn physics w1 = (Ret r, w2) →
  ∃ σ0 σ1 σ2,
    CompositeReward.compute self physics σ
      = Some (Ret (CompositeReward.sum_of rs), σ0) ∧
    CompositeReward.add self name reward_fn σ = Some (Ret (), σ1) ∧
    CompositeReward.compute self physics σ1
      = Some (Ret (CompositeReward.sum_of rs + r), σ2) ∧
    CompositeReward.world σ2 = w2 ∧
    CompositeReward.term self σ2 name = Some r.
Proof.
  intros Hvalid Hf Hname Hret Hcall.
  pose proof Hvalid as (fns0 & ts & Hf0 & Ht & Hnf & _).
  assert (fns0 = fns) as -> by congruence.
  pose proof (attributes_distinct self σ fns ts Hf Ht) as Hne.
  pose proof (compute_returns self σ fns ts physics rs w1 Hf Ht Hret) as Hc0.
  set (σ1 := CompositeReward.update (CompositeReward._reward_fns self)
               (CompositeReward.FnDict (fns ++ [(name, reward_fn)])) σ).
  assert (CompositeReward.add self name reward_fn σ = Some (Ret (), σ1))
    as Hadd.
  { by rewrite (add_run _ _ _ _ _ Hf), dict_set_fresh. }
  assert (CompositeReward.registered self σ1 = Some (fns ++ [(name, reward_fn)]))
    as Hf1 by apply registered_update_fns.
  assert (CompositeReward.snapshot self σ1 = Some ts) as Ht1.
  { unfold σ1. by rewrite snapshot_update_other. }
  pose proof (compute_returns self σ1 _ ts physics (rs ++ [r]) w2 Hf1 Ht1
                (returns_snoc _ _ _ _ _ name _ _ _ Hret Hcall)) as Hc1.
  rewrite sum_of_snoc in Hc1.
  eexists _, _, _. split; [exact Hc0|]. split; [exact Hadd|].
  split; [exact Hc1|]. split; [done|].
  unfold CompositeReward.term.
  change (CompositeReward.snapshot self (CompositeReward.set_world w2 ?s))
    with (CompositeReward.snapshot self s).
  rewrite snapshot_update_terms. simpl.
  apply (record_all_lookup _ _ _ (length fns)).
  - rewrite keys_app. apply NoDup_app. split; [done|].
    split; [|apply NoDup_singleton].
    intros x Hx Hx'. apply list_elem_of_singleton in Hx'. by subst.
  - rewrite keys_app. unfold keys at 1.
    rewrite lookup_app_r by by rewrite length_fmap.
    by rewrite length_fmap, Nat.sub_diag.
  - rewrite lookup_app_r by by rewrite (returns_length _ _ _ _ _ Hret).
    by rewrite (returns_length _ _ _ _ _ Hret), Nat.sub_diag.
Qed.

Lemma keys_record_all_prefix (names p : list string) ts (rs : list Reward) :
  NoDup names → keys ts `prefix_of` names → p `prefix_of` names →
  length rs = length p →
  keys (record_all ts p rs) `prefix_of` names.
Proof.
  intros Hnd Hts Hp Hlen.
  rewrite (record_all_prefix p names ts rs Hnd Hts Hp Hlen).
  rewrite keys_app, keys_zip by done. unfold keys at 1. rewrite fmap_drop.
  fold (keys ts).
  destruct (decide (length p ≤ length (keys ts))) as [Hle|Hgt].
  - assert (p `prefix_of` keys ts) as [rest Hrest].
    { destruct (prefix_weak_total p (keys ts) names Hp Hts) as [H|H]; [done|].
      by rewrite (prefix_length_eq _ _ H Hle). }
    rewrite Hrest at 1. rewrite drop_app_length. by rewrite <- Hrest.
  - rewrite drop_ge by lia. by rewrite app_nil_r.
Qed.

Lemma perform_snapshot_follows self σ
    (c : CompositeReward.method_call Physics World) σ' :
  CompositeReward.valid self σ →
  (∀ name, c ≠ CompositeReward.Remove name) →
  snapshot_follows self σ →
  CompositeReward.perform self c σ = Some σ' →
  snapshot_follows self σ'.
Proof.
  intros Hvalid Hc (fns & ts & Hf & Ht & Hpre) Hrun.
  pose proof Hvalid as (fns0 & ts0 & Hf0 & Ht0 & Hnf & _).
  assert (fns0 = fns) as -> by congruence.
  pose proof (attributes_distinct self σ fns ts Hf Ht) as Hne.
  destruct c as [n fn|n|physics|k]; simpl in Hrun.
  - rewrite (add_run _ _ _ _ _ Hf) in Hrun. injection Hrun as <-.
    exists (dict_set fns n fn), ts.
    split; [apply registered_update_fns|].
    split; [by rewrite snapshot_update_other|].
    rewrite keys_dict_set. case_decide; [done|]. by apply prefix_app_r.
  - by destruct (Hc n).
  - destruct (compute_shape self σ fns ts physics Hf Ht)
      as (r & visited & rs & w' & Hcomp & Hvis & Hlen).
    rewrite Hcomp in Hrun. injection Hrun as <-.
    exists fns, (record_all ts (keys visited) rs).
    split; [|split].
    + change (CompositeReward.registered self (CompositeReward.set_world w' ?s))
        with (CompositeReward.registered self s).
      rewrite registered_update_other; [done|congruence].
    + apply snapshot_update_terms.
    + apply keys_record_all_prefix; [done|done| |].
      * destruct Hvis as [rest ->]. rewrite keys_app. by eexists.
      * unfold keys. by rewrite length_fmap.
  - injection Hrun as <-. by exists fns, ts.
Qed.

Lemma after_snapshot_follows self
    (cs : list (CompositeReward.method_call Physics World)) :
  ∀ σ σ',
  CompositeReward.valid self σ →
  CompositeReward.never_removes cs →
  snapshot_follows self σ →
  CompositeReward.after self cs σ = Some σ' →
  CompositeReward.valid self σ' ∧ snapshot_follows self σ'.
Proof.
  induction cs as [|c cs IH]; intros σ σ' Hvalid Hrm Hfol Hafter; simpl in *.
  - by injection Hafter as <-.
  - pose proof Hvalid as (fns & _ & Hf & _).
    destruct (perform_run self σ fns c Hvalid Hf) as (σ1 & Hrun & Hv1 & _).
    rewrite Hrun in Hafter. simpl in Hafter.
    apply (IH σ1 σ' Hv1); [| |done].
    + intros n Hn. apply (Hrm n). by right.
    + apply (perform_snapshot_follows self σ c); try done.
      intros n ->. apply (Hrm n). left.
Qed.

(** X15: as long as nothing is removed, the snapshot lists the terms in
    registration order. For an instance built by [__init__] and used by a
    client that adds (new names or old ones), computes and lets the world
    move: when the registered functions return, [compute] leaves as the
    snapshot exactly the registered names, in registration order, each with
    the value just returned, so that the values of [reward_terms], summed in
    order, give the total that [compute] returned. *)
Theorem composite_snapshot_in_registration_order
    (kwargs : dict CFn') σ0 self σ1
    (cs : list (CompositeReward.method_call Physics World)) σ2 fns
    physics (rs : list Reward) w' :
  CompositeReward.__init__ kwargs σ0 = Some (Ret self, σ1) →
  CompositeReward.after self cs σ1 = Some σ2 →
  CompositeReward.never_removes cs →
  CompositeReward.registered self σ2 = Some fns →
  CompositeReward.returns physics (CompositeReward.world σ2) fns rs w' →
  ∃ σ3,
    CompositeReward.compute self physics σ2
      = Some (Ret (CompositeReward.sum_of rs), σ3) ∧
    CompositeReward.snapshot self σ3 = Some (zip (keys fns) rs) ∧
    CompositeReward.sum_of (zip (keys fns) rs).*2 = CompositeReward.sum_of rs.
Proof.
  intros Hinit Hafter Hrm Hf Hret.
  destruct (init_run kwargs σ0) as (self' & σ' & Hinit' & Hv1 & Hf1 & Ht1 & _).
  rewrite Hinit in Hinit'. injection Hinit' as <- <-.
  assert (snapshot_follows self σ1) as Hfol1.
  { eexists _, _. split; [done|]. split; [done|]. apply prefix_nil. }
  destruct (after_snapshot_follows self cs σ1 σ2 Hv1 Hrm Hfol1 Hafter)
    as [Hv2 (fns' & ts & Hf' & Ht & Hpre)].
  assert (fns' = fns) as -> by congruence.
  pose proof Hv2 as (fns0 & ts0 & Hf0 & _ & Hnf & _).
  assert (fns0 = fns) as -> by congruence.
  pose proof (returns_length _ _ _ _ _ Hret) as Hlen.
  assert (length rs = length (keys fns)) as Hlen'.
  { unfold keys. by rewrite length_fmap. }
  rewrite (compute_returns self σ2 fns ts physics rs w' Hf Ht Hret).
  eexists. split; [done|]. split.
  - change (CompositeReward.snapshot self (CompositeReward.set_world w' ?s))
      with (CompositeReward.snapshot self s).
    rewrite snapshot_update_terms. f_equal.
    rewrite (record_all_prefix (keys fns) (keys fns) ts rs) by done.
    rewrite drop_ge; [by rewrite app_nil_r|].
    apply prefix_length in Hpre. unfold keys in Hpre.
    rewrite !length_fmap in Hpre. unfold keys. by rewrite length_fmap.
  - rewrite snd_zip; [done|lia].
Qed.

(** X16: the class invariant. Once [__init__] has built an instance, no
    sequence of calls by a client gets stuck or breaks it: the two
    attributes name two different dicts, the registered names are pairwise
    distinct, and the two accessors return these dicts without changing
    anything. *)
Theorem composite_invariant (kwargs : dict CFn') σ0 self σ1
    (cs : list (CompositeReward.method_call Physics World)) :
  CompositeReward.__init__ kwargs σ0 = Some (Ret self, σ1) →
  ∃ σ2 fns ts,
    CompositeReward.after self cs σ1 = Some σ2 ∧
    CompositeReward.registered self σ2 = Some fns ∧
    CompositeReward.snapshot self σ2 = Some ts ∧
    NoDup (keys fns) ∧ NoDup (keys ts) ∧
    CompositeReward._reward_fns self ≠ CompositeReward._reward_terms self ∧
    CompositeReward.reward_fns self σ2
      = Some (Ret (CompositeReward._reward_fns self), σ2) ∧
    CompositeReward.fns_items (CompositeReward._reward_fns self) σ2
      = Some (Ret fns, σ2) ∧
    CompositeReward.reward_terms self σ2
      = Some (Ret (CompositeReward._reward_terms self), σ2).
Proof.
  intros Hinit.
  destruct (init_run kwargs σ0) as (self' & σ' & Hinit' & Hv1 & _).
  rewrite Hinit in Hinit'. injection Hinit' as <- <-.
  destruct (after_run self cs σ1 Hv1)
    as (σ2 & Hafter & fns & ts & Hf & Ht & Hnf & Hnt).
  exists σ2, fns, ts. do 5 (split; [done|]).
  split; [by apply (attributes_distinct self σ2 fns ts)|].
  split; [done|]. split; [by apply fns_items_run|done].
Qed.

End CompositeRewardMore.

(** ** Concrete runs of the further properties *)

Lemma tiered_compute_without_forearm_witness :
  TieredReward.compute true (tiered_without_forearm 0.3) () []
    = (Ret 0.6, ["key_press"; "sustain"; "energy"; "fingering"]) ∧
  TieredReward.compute true (tiered_without_forearm 0.6) () []
    = (Ret 1.9, ["key_press"; "sustain"; "energy"; "fingering"]).
Proof.
  pose (run := λ k,
    tiered_compute_without_forearm true (tiered_without_forearm k) ()
      (constant "fingering" 0.1) k 0.2 1.0 0.1
      [] ["key_press"] ["key_press"; "sustain"]
      ["key_press"; "sustain"; "energy"]
      ["key_press"; "sustain"; "energy"; "fingering"]
      eq_refl eq_refl (function_truthy (constant "fingering" 0.1))
      eq_refl eq_refl eq_refl eq_refl).
  split.
  - exact (proj1 (run 0.3) eq_refl).
  - exact (proj2 (run 0.6) eq_refl).
Defined.

Lemma tiered_compute_nan_key_press_witness :
  TieredReward.compute true (tiered_example nan) () []
  = (Ret nan, ["key_press"; "sustain"; "energy"; "fingering"; "forearm"]).
Proof.
  exact (tiered_compute_nan_key_press true (tiered_example nan) ()
           (constant "fingering" 0.1) (constant "forearm" 1.0)
           nan 0.2 1.0 0.1 1.0
           [] ["key_press"] ["key_press"; "sustain"]
           ["key_press"; "sustain"; "energy"]
           ["key_press"; "sustain"; "energy"; "fingering"]
           ["key_press"; "sustain"; "energy"; "fingering"; "forearm"]
           eq_refl eq_refl
           (function_truthy (constant "fingering" 0.1))
           (function_truthy (constant "forearm" 1.0))
           eq_refl eq_refl eq_refl eq_refl eq_refl eq_refl).
Defined.

Lemma tiered_compute_propagates_witness :
  TieredReward.compute true
    (TieredReward.__init__
       (constant "key_press" 0.6)
       (failing "sustain" (OtherError "RuntimeError" "boom"))
       (constant "energy" 1.0))
    () []
  = (Raise (OtherError "RuntimeError" "boom"), ["key_press"; "sustain"]) ∧
  TieredReward.compute true
    (TieredReward.after
       (TieredReward.__init__
          (constant "key_press" 0.6) (constant "sustain" 0.2)
          (constant "energy" 1.0))
       [TieredReward.Add "fingering_reward"
          (failing "fingering" (OtherError "RuntimeError" "boom"))])
    () []
  = (Raise (OtherError "RuntimeError" "boom"),
     ["key_press"; "sustain"; "energy"; "fingering"]).
Proof.
  split.
  - pose proof (tiered_compute_propagates true
                  (TieredReward.__init__
                     (constant "key_press" 0.6)
                     (failing "sustain" (OtherError "RuntimeError" "boom"))
                     (constant "energy" 1.0))
                  () (constant "fingering" 0.1) (constant "forearm" 1.0)
                  0.6 0.2 1.0 0.1 (OtherError "RuntimeError" "boom")
                  [] ["key_press"] ["key_press"; "sustain"] [] [] [])
      as (_ & Hsustain & _).
    exact (Hsustain eq_refl eq_refl).
  - pose proof (tiered_compute_propagates true
                  (TieredReward.after
                     (TieredReward.__init__
                        (constant "key_press" 0.6) (constant "sustain" 0.2)
                        (constant "energy" 1.0))
                     [TieredReward.Add "fingering_reward"
                        (failing "fingering"
                           (OtherError "RuntimeError" "boom"))])
                  () (failing "fingering" (OtherError "RuntimeError" "boom"))
                  (constant "forearm" 1.0)
                  0.6 0.2 1.0 0.1 (OtherError "RuntimeError" "boom")
                  [] ["key_press"] ["key_press"; "sustain"]
                  ["key_press"; "sustain"; "energy"]
                  ["key_press"; "sustain"; "energy"; "fingering"] [])
      as (_ & _ & _ & Hfingering & _).
    exact (Hfingering eq_refl eq_refl eq_refl eq_refl
             (function_truthy _) eq_refl).
Defined.

Lemma tiered_add_order_witness :
  TieredReward.after (tiered_example 0.3)
    [TieredReward.Add "forearm_reward" (constant "a" 0.0);
     TieredReward.Add "fingering_reward" (constant "b" 0.0)]
  = TieredReward.after (tiered_example 0.3)
      [TieredReward.Add "fingering_reward" (constant "b" 0.0);
       TieredReward.Add "forearm_reward" (constant "a" 0.0)].
Proof.
  apply (tiered_add_order (tiered_example 0.3)
           "forearm_reward" "fingering_reward"
           (constant "a" 0.0) (constant "b" 0.0)).
  discriminate.
Defined.

Lemma composite_add_overwrites_in_place_witness :
  ∃ σ',
    CompositeReward.add example_self "sustain" (constant "sustain" 0.5)
      example_state = Some (Ret (), σ') ∧
    CompositeReward.registered example_self σ'
      = Some [("key_press", constant "key_press" 0.3);
              ("sustain", constant "sustain" 0.5);
              ("fingering", constant "fingering" 0.1)].
Proof.
  destruct (composite_add_overwrites_in_place example_self example_state
              [("key_press", constant "key_press" 0.3)]
              "sustain" (constant "sustain" 0.2) (constant "sustain" 0.5)
              [("fingering", constant "fingering" 0.1)])
    as (σ' & Hadd & Hreg & _).
  - exact example_state_valid.
  - reflexivity.
  - by exists σ'.
Defined.

Lemma composite_add_then_remove_witness :
  ∃ σ1,
    CompositeReward.add example_self "forearm" (constant "forearm" 1.0)
      example_state = Some (Ret (), σ1) ∧
    CompositeReward.remove example_self "forearm" σ1
      = Some (Ret (), example_state).
Proof.
  destruct (composite_add_then_remove example_self example_state
              [("key_press", constant "key_press" 0.3);
               ("sustain", constant "sustain" 0.2);
               ("fingering", constant "fingering" 0.1)]
              "forearm" (constant "forearm" 1.0))
    as (σ1 & Hadd & _ & Hrem).
  - reflexivity.
  - compute_done.
  - by exists σ1.
Defined.

Lemma composite_readd_moves_last_witness :
  ∃ σ1 σ2,
    CompositeReward.remove example_self "key_press" example_state
      = Some (Ret (), σ1) ∧
    CompositeReward.add example_self "key_press" (constant "key_press" 0.3) σ1
      = Some (Ret (), σ2) ∧
    CompositeReward.registered example_self σ2
      = Some [("sustain", constant "sustain" 0.2);
              ("fingering", constant "fingering" 0.1);
              ("key_press", constant "key_press" 0.3)].
Proof.
  destruct (composite_readd_moves_last example_self example_state
              [] "key_press" (constant "key_press" 0.3)
              (constant "key_press" 0.3)
              [("sustain", constant "sustain" 0.2);
               ("fingering", constant "fingering" 0.1)])
    as (σ1 & σ2 & Hrem & _ & Hadd & Hreg).
  - exact example_state_valid.
  - reflexivity.
  - by exists σ1, σ2.
Defined.

Lemma composite_instances_independent_witness :
  CompositeReward.__init__ second_kwargs example_state
    = Some (Ret second_self, second_state) ∧
  CompositeReward.after second_self [CompositeReward.Compute ()] second_state
    = Some second_state_computed ∧
  CompositeReward.registered example_self second_state_computed
    = CompositeReward.registered example_self example_state ∧
  CompositeReward.snapshot example_self second_state_computed
    = CompositeReward.snapshot example_self example_state.
Proof.
  assert (CompositeReward.__init__ second_kwargs example_state
          = Some (Ret second_self, second_state)) as Hinit
    by (vm_compute; reflexivity).
  assert (CompositeReward.after second_self [CompositeReward.Compute ()]
            second_state = Some second_state_computed) as Hafter
    by (vm_compute; reflexivity).
  destruct (composite_instances_independent example_self example_state
              second_kwargs second_self second_state
              [CompositeReward.Compute ()] second_state_computed
              example_state_valid Hinit Hafter)
    as (Hreg & Hsnap & _).
  done.
Defined.

Lemma composite_methods_frame_witness :
  CompositeReward.snapshot example_self
    (CompositeReward.update 1
       (CompositeReward.FnDict
          [("key_press", constant "key_press" 0.3);
           ("fingering", constant "fingering" 0.1)])
       example_state)
  = CompositeReward.snapshot example_self example_state.
Proof.
  destruct (composite_methods_frame example_self example_state
              example_state_valid) as (_ & Hrem & _).
  apply (Hrem "sustain" (Ret ())). vm_compute. reflexivity.
Defined.

Lemma composite_snapshot_entries_persist_witness :
  is_Some
    (CompositeReward.term example_self
       (CompositeReward.set_world ["key_press"; "fingering"]
          (CompositeReward.update 2
             (CompositeReward.TermDict
                [("key_press", 0.3); ("sustain", 0.2); ("fingering", 0.1)])
             (CompositeReward.update 1
                (CompositeReward.FnDict
                   [("key_press", constant "key_press" 0.3);
                    ("fingering", constant "fingering" 0.1)])
                example_state)))
       "sustain").
Proof.
  apply (composite_snapshot_entries_persist example_self
           [CompositeReward.Remove "sustain"; CompositeReward.Compute ()]
           "sustain" example_state).
  - exact example_state_valid.
  - vm_compute. reflexivity.
  - by eexists.
Defined.

Lemma composite_compute_nothing_registered_witness :
  CompositeReward.compute example_self () bare_state
  = Some (Ret 0, bare_state).
Proof.
  apply (composite_compute_nothing_registered empty_state).
  vm_compute. reflexivity.
Defined.

Lemma composite_add_extends_sum_witness :
  ∃ σ0 σ1 σ2,
    CompositeReward.compute example_self () example_state
      = Some (Ret 0.6, σ0) ∧
    CompositeReward.add example_self "forearm" (constant "forearm" 1.0)
      example_state = Some (Ret (), σ1) ∧
    CompositeReward.compute example_self () σ1 = Some (Ret 1.6, σ2) ∧
    CompositeReward.term example_self σ2 "forearm" = Some 1.0.
Proof.
  destruct (composite_add_extends_sum example_self example_state
              [("key_press", constant "key_press" 0.3);
               ("sustain", constant "sustain" 0.2);
               ("fingering", constant "fingering" 0.1)]
              "forearm" (constant "forearm" 1.0) ()
              [0.3; 0.2; 0.1] 1.0
              ["key_press"; "sustain"; "fingering"]
              ["key_press"; "sustain"; "fingering"; "forearm"])
    as (σ0 & σ1 & σ2 & Hc0 & Hadd & Hc1 & _ & Hterm).
  - exact example_state_valid.
  - reflexivity.
  - compute_done.
  - repeat econstructor.
  - reflexivity.
  - by exists σ0, σ1, σ2.
Defined.

Lemma composite_snapshot_in_registration_order_witness :
  ∃ σ3,
    CompositeReward.compute example_self () example_state
      = Some (Ret 0.6, σ3) ∧
    CompositeReward.snapshot example_self σ3
      = Some [("key_press", 0.3); ("sustain", 0.2); ("fingering", 0.1)].
Proof.
  destruct (composite_snapshot_in_registration_order
              example_kwargs empty_state example_self initial_state
              example_client example_state
              [("key_press", constant "key_press" 0.3);
               ("sustain", constant "sustain" 0.2);
               ("fingering", constant "fingering" 0.1)]
              () [0.3; 0.2; 0.1] ["key_press"; "sustain"; "fingering"])
    as (σ3 & Hrun & Hsnap & _).
  - vm_compute. reflexivity.
  - vm_compute. reflexivity.
  - intros name Hin.
    repeat (apply elem_of_cons in Hin as [Hin|Hin]; [discriminate|]).
    by apply elem_of_nil in Hin.
  - reflexivity.
  - repeat econstructor.
  - by exists σ3.
Defined.

Lemma composite_invariant_witness :
  ∃ σ2 fns,
    CompositeReward.after example_self
      (example_client ++ [CompositeReward.Remove "bogus"]) initial_state
      = Some σ2 ∧
    CompositeReward.registered example_self σ2 = Some fns ∧
    NoDup (keys fns).
Proof.
  destruct (composite_invariant example_kwargs empty_state example_self
              initial_state
              (example_client ++ [CompositeReward.Remove "bogus"]))
    as (σ2 & fns & ts & Hafter & Hf & _ & Hnd & _).
  - vm_compute. reflexivity.
  - by exists σ2, fns.
Defined.

Lemma tiered_compute_false_slot_witness :
  TieredReward.compute true (tiered_false_forearm 0.3) () []
    = (Ret 0.6, ["key_press"; "sustain"; "energy"; "fingering"]) ∧
  TieredReward.compute true
    (TieredReward.after
       (TieredReward.__init__
          (constant "key_press" 0.6) (constant "sustain" 0.2)
          (constant "energy" 1.0))
       [TieredReward.Add "fingering_reward"
          (always_false (constant "fingering" 0.1))])
    () []
  = (Raise AssertionError, ["key_press"; "sustain"; "energy"]).
Proof.
  split.
  - exact (proj1 (tiered_compute_false_slot true (tiered_false_forearm 0.3) ()
                    (constant "fingering" 0.1)
                    (always_false (constant "forearm" 1.0))
                    0.3 0.2 1.0 0.1
                    [] ["key_press"] ["key_press"; "sustain"]
                    ["key_press"; "sustain"; "energy"]
                    ["key_press"; "sustain"; "energy"; "fingering"]
                    eq_refl eq_refl eq_refl eq_refl)
             (function_truthy _) eq_refl eq_refl (λ w, eq_refl)).
  - exact (proj2 (tiered_compute_false_slot true
                    (TieredReward.after
                       (TieredReward.__init__
                          (constant "key_press" 0.6) (constant "sustain" 0.2)
                          (constant "energy" 1.0))
                       [TieredReward.Add "fingering_reward"
                          (always_false (constant "fingering" 0.1))])
                    ()
                    (always_false (constant "fingering" 0.1))
                    (constant "forearm" 1.0)
                    0.6 0.2 1.0 0.1
                    [] ["key_press"] ["key_press"; "sustain"]
                    ["key_press"; "sustain"; "energy"] []
                    eq_refl eq_refl eq_refl eq_refl)
             (λ w, eq_refl) eq_refl).
Defined.

Lemma tiered_compute_optimized_without_fingering_witness :
  TieredReward.compute false (tiered_without_fingering 0.3) () []
  = (Ret 0.5, ["key_press"; "sustain"; "energy"; "forearm"]).
Proof.
  exact (tiered_compute_optimized_without_fingering
           (tiered_without_fingering 0.3) () (constant "forearm" 1.0)
           0.3 0.2 1.0 1.0
           [] ["key_press"] ["key_press"; "sustain"]
           ["key_press"; "sustain"; "energy"]
           ["key_press"; "sustain"; "energy"; "forearm"]
           eq_refl eq_refl (function_truthy _)
           eq_refl eq_refl eq_refl eq_refl).
Defined.
